(** * A Slack slash-command relay: shallow embedding of [main.py]

    The service receives a slash command, asks every configured region for
    the environments whose name matches, asks for the deployments of each
    match, builds a Slack message with one button per deployment and posts
    it to a webhook.

    Python values are embedded as follows.
    - JSON data (what [response.json()] returns and what the blocks of the
      message are made of) is the inductive type [json]; a [dict] is an
      association list in insertion order, [None] is [JNull].  A [str] is
      a [string] whose characters are the code points below 256; numbers
      are the integers (a JSON number with a fraction or an exponent is a
      float and is outside this embedding).
    - JSON data is dynamically typed: an operation applied to a value of
      the wrong kind raises, as it does in Python.  Exceptions are the
      [Raise] results of an error monad, which also threads the heap of
      the mutable headers dicts and the trace of outbound HTTP requests.
    - The network and the process environment are a [world]; every
      property is proved for all worlds.
    - The handler takes the form fields as [parse_qs] decodes them from the
      body of the request.
    - Logging is not modelled.

    The file has two parts: the embedding (values, the [json] module, the
    monad, the program, a sample world), then the properties. *)

From Stdlib Require Import String Ascii List ZArith NArith Bool Lia.
From Stdlib Require Import Decimal DecimalString DecimalZ DecimalNat.
Import ListNotations.
Local Open Scope string_scope.
Local Open Scope list_scope.

(** ** Dicts with string keys, in insertion order *)

Definition dict (V : Type) : Type := list (string * V).

Section Dict.
Context {V : Type}.

(** [d.get(k)] *)
Fixpoint dict_get (k : string) (d : dict V) : option V :=
  match d with
  | [] => None
  | (k', v) :: r => if String.eqb k k' then Some v else dict_get k r
  end.

(** [d[k] = v]: an existing key keeps its place, a new one goes last. *)
Fixpoint dict_set (k : string) (v : V) (d : dict V) : dict V :=
  match d with
  | [] => [(k, v)]
  | (k', v') :: r =>
      if String.eqb k k' then (k, v) :: r else (k', v') :: dict_set k v r
  end.

(** [k in d] *)
Definition dict_mem (k : string) (d : dict V) : bool :=
  match dict_get k d with Some _ => true | None => false end.

End Dict.

(** ** JSON data *)

#[warnings="-register-all"]
Inductive json : Type :=
| JNull
| JBool (b : bool)
| JInt (n : Z)
| JStr (s : string)
| JList (l : list json)
| JDict (d : list (string * json)).

(** Keys of every dict inside a value are pairwise distinct, as they are in
    any Python dict. *)
Fixpoint nodupb (l : list string) : bool :=
  match l with
  | [] => true
  | k :: r => negb (existsb (String.eqb k) r) && nodupb r
  end.

Fixpoint wf_json (v : json) : bool :=
  match v with
  | JList l => forallb wf_json l
  | JDict d => nodupb (map fst d) && forallb (fun kv => wf_json (snd kv)) d
  | _ => true
  end.

(** ** Python's operators on JSON data *)

(** Truth value: [None], [False], [0], the empty string, list and dict are
    false. *)
Definition truthy (v : json) : bool :=
  match v with
  | JNull => false
  | JBool b => b
  | JInt n => negb (n =? 0)%Z
  | JStr s => negb (s =? "")%string
  | JList l => match l with [] => false | _ => true end
  | JDict d => match d with [] => false | _ => true end
  end.

(** [a or b] *)
Definition py_or (a b : json) : json := if truthy a then a else b.

(** [v == s] for a str constant [s]. *)
Definition eq_str (v : json) (s : string) : bool :=
  match v with
  | JStr t => String.eqb t s
  | _ => false
  end.

(** [d.get(k)] read as a value: an absent key gives [None]. *)
Definition get_or_none (k : string) (d : dict json) : json :=
  match dict_get k d with Some v => v | None => JNull end.

(** ** The [json] module: [json.dumps] and [json.loads]

    [dumps] follows the encoder's defaults: separators [", "] and [": "],
    every character outside the printable ASCII range escaped
    ([ensure_ascii]).  [loads] follows the decoder on the same fragment of
    data; on a text that holds a float or a code point above 255 it gives
    [None], as it does on a text that is not JSON. *)

Module Json.

Definition dquote : ascii := "034".
Definition backslash : ascii := "092".

Definition hex_digit (n : N) : ascii :=
  match n with
  | 0 => "0" | 1 => "1" | 2 => "2" | 3 => "3" | 4 => "4" | 5 => "5"
  | 6 => "6" | 7 => "7" | 8 => "8" | 9 => "9" | 10 => "a" | 11 => "b"
  | 12 => "c" | 13 => "d" | 14 => "e" | _ => "f"
  end%N%char.

(** One character of a str inside the quotes. *)
Definition escape_char (c : ascii) : string :=
  let n := N_of_ascii c in
  if Ascii.eqb c dquote then String backslash (String dquote "")
  else if Ascii.eqb c backslash then String backslash (String backslash "")
  else if (n =? 10)%N then String backslash "n"
  else if (n =? 13)%N then String backslash "r"
  else if (n =? 9)%N then String backslash "t"
  else if (n =? 12)%N then String backslash "f"
  else if (n =? 8)%N then String backslash "b"
  else if ((32 <=? n) && (n <=? 126))%N then String c ""
  else String backslash
         (String "u" (String "0" (String "0"
           (String (hex_digit (n / 16)) (String (hex_digit (n mod 16)) ""))))).

Fixpoint escape_string (s : string) : string :=
  match s with
  | EmptyString => ""
  | String c r => escape_char c ++ escape_string r
  end%string.

Definition dumps_str (s : string) : string :=
  String dquote (escape_string s ++ String dquote "").

Definition dumps_int (n : Z) : string := NilEmpty.string_of_int (Z.to_int n).

Fixpoint dumps (v : json) : string :=
  match v with
  | JNull => "null"
  | JBool true => "true"
  | JBool false => "false"
  | JInt n => dumps_int n
  | JStr s => dumps_str s
  | JList l =>
      "[" ++
      (fix items (l : list json) : string :=
         match l with
         | [] => ""
         | x :: r =>
             match r with
             | [] => dumps x
             | _ :: _ => dumps x ++ ", " ++ items r
             end
         end) l ++ "]"
  | JDict d =>
      "{" ++
      (fix members (d : list (string * json)) : string :=
         match d with
         | [] => ""
         | (k, x) :: r =>
             match r with
             | [] => dumps_str k ++ ": " ++ dumps x
             | _ :: _ => dumps_str k ++ ": " ++ dumps x ++ ", " ++ members r
             end
         end) d ++ "}"
  end%string.

Definition dumps_items (l : list json) : string :=
  (fix items (l : list json) : string :=
     match l with
     | [] => ""
     | x :: r =>
         match r with
         | [] => dumps x
         | _ :: _ => dumps x ++ ", " ++ items r
         end
     end%string) l.

Definition dumps_members (d : list (string * json)) : string :=
  (fix members (d : list (string * json)) : string :=
     match d with
     | [] => ""
     | (k, x) :: r =>
         match r with
         | [] => dumps_str k ++ ": " ++ dumps x
         | _ :: _ => dumps_str k ++ ": " ++ dumps x ++ ", " ++ members r
         end
     end%string) d.

(** *** Decoding *)

Definition is_ws (c : ascii) : bool :=
  match c with
  | " " | "009" | "010" | "013" => true
  | _ => false
  end%char.

Fixpoint skip_ws (s : string) : string :=
  match s with
  | String c r => if is_ws c then skip_ws r else s
  | EmptyString => s
  end.

Definition digit_of (c : ascii) : option (uint -> uint) :=
  match c with
  | "0" => Some D0 | "1" => Some D1 | "2" => Some D2 | "3" => Some D3
  | "4" => Some D4 | "5" => Some D5 | "6" => Some D6 | "7" => Some D7
  | "8" => Some D8 | "9" => Some D9 | _ => None
  end%char.

(** The longest run of digits at the head of [s], and what follows it. *)
Fixpoint scan_digits (s : string) : uint * string :=
  match s with
  | String c r =>
      match digit_of c with
      | Some d => let (u, r') := scan_digits r in (d u, r')
      | None => (Nil, s)
      end
  | EmptyString => (Nil, s)
  end.

(** A fraction or an exponent after the digits makes the number a float. *)
Definition float_follows (s : string) : bool :=
  match s with
  | String c _ =>
      match c with "." | "e" | "E" => true | _ => false end%char
  | EmptyString => false
  end.

(** The digits of an int: at least one, and no zero before another digit. *)
Definition canonical (u : uint) : bool :=
  match u with
  | Nil => false
  | D0 Nil => true
  | D0 _ => false
  | _ => true
  end.

Definition finish_int (sign : uint -> Decimal.int) (p : uint * string) :
  option (json * string) :=
  let (u, r) := p in
  if canonical u && negb (float_follows r)
  then Some (JInt (Z.of_int (sign u)), r)
  else None.

Definition scan_int (s : string) : option (json * string) :=
  match s with
  | String "-" r => finish_int Neg (scan_digits r)
  | _ => finish_int Pos (scan_digits s)
  end.

Definition hex_value (c : ascii) : option N :=
  let n := N_of_ascii c in
  if ((48 <=? n) && (n <=? 57))%N then Some (n - 48)%N
  else if ((97 <=? n) && (n <=? 102))%N then Some (n - 87)%N
  else if ((65 <=? n) && (n <=? 70))%N then Some (n - 55)%N
  else None.

Definition hex4 (a b c d : ascii) : option N :=
  match hex_value a, hex_value b, hex_value c, hex_value d with
  | Some x, Some y, Some z, Some t => Some (((x * 16 + y) * 16 + z) * 16 + t)%N
  | _, _, _, _ => None
  end.

Definition cons_char (c : ascii) (p : option (string * string)) :
  option (string * string) :=
  match p with
  | Some (s, r) => Some (String c s, r)
  | None => None
  end.

(** The str whose opening quote has been read, and what follows its
    closing quote. *)
Fixpoint scan_string (s : string) : option (string * string) :=
  match s with
  | EmptyString => None
  | String c r =>
      if Ascii.eqb c dquote then Some (EmptyString, r)
      else if Ascii.eqb c backslash then
        match r with
        | String e r' =>
            if Ascii.eqb e dquote then cons_char dquote (scan_string r')
            else if Ascii.eqb e backslash then cons_char backslash (scan_string r')
            else
              match e with
              | "/" => cons_char "/" (scan_string r')
              | "b" => cons_char "008" (scan_string r')
              | "f" => cons_char "012" (scan_string r')
              | "n" => cons_char "010" (scan_string r')
              | "r" => cons_char "013" (scan_string r')
              | "t" => cons_char "009" (scan_string r')
              | "u" =>
                  match r' with
                  | String h1 (String h2 (String h3 (String h4 r''))) =>
                      match hex4 h1 h2 h3 h4 with
                      | Some n =>
                          if (n <? 256)%N
                          then cons_char (ascii_of_N n) (scan_string r'')
                          else None
                      | None => None
                      end
                  | _ => None
                  end
              | _ => None
              end%char
        | EmptyString => None
        end
      else if (N_of_ascii c <? 32)%N then None
      else cons_char c (scan_string r)
  end.

(** [dict(pairs)]: a later pair replaces the value of an equal key. *)
Definition dict_of_pairs (pairs : list (string * json)) : dict json :=
  fold_left (fun d kv => dict_set (fst kv) (snd kv) d) pairs [].

Fixpoint scan_value (fuel : nat) (s : string) : option (json * string) :=
  match fuel with
  | O => None
  | S fuel' =>
      match s with
      | String "n" (String "u" (String "l" (String "l" r))) => Some (JNull, r)
      | String "t" (String "r" (String "u" (String "e" r))) => Some (JBool true, r)
      | String "f" (String "a" (String "l" (String "s" (String "e" r)))) =>
          Some (JBool false, r)
      | String "[" r =>
          match skip_ws r with
          | String "]" r' => Some (JList [], r')
          | r1 =>
              match scan_items fuel' r1 with
              | Some (l, r') => Some (JList l, r')
              | None => None
              end
          end
      | String "{" r =>
          match skip_ws r with
          | String "}" r' => Some (JDict [], r')
          | r1 =>
              match scan_members fuel' r1 with
              | Some (m, r') => Some (JDict (dict_of_pairs m), r')
              | None => None
              end
          end
      | String c r =>
          if Ascii.eqb c dquote then
            match scan_string r with
            | Some (str, r') => Some (JStr str, r')
            | None => None
            end
          else scan_int s
      | EmptyString => None
      end
  end
with scan_items (fuel : nat) (s : string) : option (list json * string) :=
  match fuel with
  | O => None
  | S fuel' =>
      match scan_value fuel' s with
      | Some (v, r) =>
          match skip_ws r with
          | String "," r' =>
              match scan_items fuel' (skip_ws r') with
              | Some (vs, r'') => Some (v :: vs, r'')
              | None => None
              end
          | String "]" r' => Some ([v], r')
          | _ => None
          end
      | None => None
      end
  end
with scan_members (fuel : nat) (s : string) :
  option (list (string * json) * string) :=
  match fuel with
  | O => None
  | S fuel' =>
      match s with
      | String c r =>
          if Ascii.eqb c dquote then
            match scan_string r with
            | Some (k, r1) =>
                match skip_ws r1 with
                | String ":" r2 =>
                    match scan_value fuel' (skip_ws r2) with
                    | Some (v, r3) =>
                        match skip_ws r3 with
                        | String "," r4 =>
                            match scan_members fuel' (skip_ws r4) with
                            | Some (m, r5) => Some ((k, v) :: m, r5)
                            | None => None
                            end
                        | String "}" r4 => Some ([(k, v)], r4)
                        | _ => None
                        end
                    | None => None
                    end
                | _ => None
                end
            | None => None
            end
          else None
      | EmptyString => None
      end
  end.

Definition loads (s : string) : option json :=
  match scan_value (S (String.length s)) (skip_ws s) with
  | Some (v, r) =>
      match skip_ws r with
      | EmptyString => Some v
      | String _ _ => None
      end
  | None => None
  end.

End Json.

(** ** Exceptions *)

Inductive exn : Type :=
| TypeError
| AttributeError
| KeyError
| IndexError
| RequestException.

Inductive result (A : Type) : Type :=
| Ok (a : A)
| Raise (e : exn).

Arguments Ok {A} a.
Arguments Raise {A} e.

Definition rbind {A B : Type} (r : result A) (k : A -> result B) : result B :=
  match r with
  | Ok a => k a
  | Raise e => Raise e
  end.

Fixpoint rmap {A B : Type} (f : A -> result B) (l : list A) : result (list B) :=
  match l with
  | [] => Ok []
  | x :: r => rbind (f x) (fun y => rbind (rmap f r) (fun ys => Ok (y :: ys)))
  end.

(** ** More of Python on JSON data *)

(** [needle in hay] for two strs. *)
Fixpoint contains (needle hay : string) : bool :=
  if String.prefix needle hay then true
  else match hay with
       | String _ r => contains needle r
       | EmptyString => false
       end.

(** [k in v] for a str [k]: a key of a dict, an element of a list, a
    substring of a str; anything else is not a container. *)
Definition py_in (k : string) (v : json) : result bool :=
  match v with
  | JDict d => Ok (dict_mem k d)
  | JList l => Ok (existsb (fun x => eq_str x k) l)
  | JStr s => Ok (contains k s)
  | JNull | JBool _ | JInt _ => Raise TypeError
  end.

(** [v[k]] for a str [k]. *)
Definition py_subscript (v : json) (k : string) : result json :=
  match v with
  | JDict d =>
      match dict_get k d with
      | Some x => Ok x
      | None => Raise KeyError
      end
  | _ => Raise TypeError
  end.

(** The values [for x in v] goes through: the elements of a list, the keys
    of a dict, the characters of a str. *)
Definition py_iter (v : json) : result (list json) :=
  match v with
  | JList l => Ok l
  | JDict d => Ok (map (fun kv => JStr (fst kv)) d)
  | JStr s => Ok (map (fun c => JStr (String c EmptyString)) (list_ascii_of_string s))
  | JNull | JBool _ | JInt _ => Raise TypeError
  end.

(** [v.get(k)]: only a dict has the method. *)
Definition py_get (v : json) (k : string) : result json :=
  match v with
  | JDict d => Ok (get_or_none k d)
  | _ => Raise AttributeError
  end.

(** [repr] and [str], which an f-string applies to what it interpolates. *)
Module Repr.

Definition squote : ascii := "039".

Definition printable (c : ascii) : bool :=
  let n := N_of_ascii c in
  (((32 <=? n) && (n <=? 126)) || ((161 <=? n) && negb (n =? 173)))%N.

Definition repr_char (q c : ascii) : string :=
  let n := N_of_ascii c in
  if Ascii.eqb c q || Ascii.eqb c Json.backslash
  then String Json.backslash (String c "")
  else if (n =? 9)%N then String Json.backslash "t"
  else if (n =? 10)%N then String Json.backslash "n"
  else if (n =? 13)%N then String Json.backslash "r"
  else if printable c then String c ""
  else String Json.backslash
         (String "x" (String (Json.hex_digit (n / 16))
                        (String (Json.hex_digit (n mod 16)) ""))).

Fixpoint has_char (c : ascii) (s : string) : bool :=
  match s with
  | EmptyString => false
  | String x r => Ascii.eqb x c || has_char c r
  end.

Definition repr_str (s : string) : string :=
  let q := if has_char squote s && negb (has_char Json.dquote s)
           then Json.dquote else squote in
  String q (String.concat "" (map (repr_char q) (list_ascii_of_string s))
            ++ String q "").

Fixpoint repr (v : json) : string :=
  match v with
  | JNull => "None"
  | JBool true => "True"
  | JBool false => "False"
  | JInt n => Json.dumps_int n
  | JStr s => repr_str s
  | JList l => "[" ++ String.concat ", " (map repr l) ++ "]"
  | JDict d =>
      "{" ++ String.concat ", "
               (map (fun kv => repr_str (fst kv) ++ ": " ++ repr (snd kv)) d)
          ++ "}"
  end%string.

Definition str (v : json) : string :=
  match v with
  | JStr s => s
  | _ => repr v
  end.

End Repr.

(** [urllib.parse.urlencode] of a list of pairs of strs, with [quote_plus]. *)
Module Url.

Definition upper_hex (n : N) : ascii :=
  match n with
  | 0 => "0" | 1 => "1" | 2 => "2" | 3 => "3" | 4 => "4" | 5 => "5"
  | 6 => "6" | 7 => "7" | 8 => "8" | 9 => "9" | 10 => "A" | 11 => "B"
  | 12 => "C" | 13 => "D" | 14 => "E" | _ => "F"
  end%N%char.

Definition percent (n : N) : string :=
  String "%" (String (upper_hex (n / 16)) (String (upper_hex (n mod 16)) "")).

(** Letters, digits and [_.-~] stay as they are. *)
Definition always_safe (c : ascii) : bool :=
  let n := N_of_ascii c in
  (((48 <=? n) && (n <=? 57)) || ((65 <=? n) && (n <=? 90))
   || ((97 <=? n) && (n <=? 122))
   || (n =? 95) || (n =? 46) || (n =? 45) || (n =? 126))%N.

(** A space becomes [+]; any other character is percent-encoded, byte by
    byte of its UTF-8 form. *)
Definition quote_char (c : ascii) : string :=
  let n := N_of_ascii c in
  if always_safe c then String c ""
  else if (n =? 32)%N then "+"
  else if (n <? 128)%N then percent n
  else (percent (192 + n / 64) ++ percent (128 + n mod 64))%string.

Definition quote_plus (s : string) : string :=
  String.concat "" (map quote_char (list_ascii_of_string s)).

Definition urlencode (query : list (string * string)) : string :=
  String.concat "&"
    (map (fun kv => quote_plus (fst kv) ++ "=" ++ quote_plus (snd kv))%string query).

End Url.

(** ** The outside world, the heap and the trace *)

(** An outbound HTTP request: [requests.get(url, headers=...)] or
    [requests.post(url, headers=..., json=...)]. *)
Inductive request : Type :=
| Get (url : string) (headers : dict json)
| Post (url : string) (headers : dict json) (body : json).

(** What comes back: no response at all (a connection error, an invalid
    request), or a response with its status and its body decoded as JSON
    ([None] when the body is not JSON). *)
Inductive reply : Type :=
| NoReply
| Reply (status : Z) (body : option json).

(** The process environment, and the network: the answer to a request may
    depend on the requests made before it. *)
Record world : Type := {
  environ : string -> option string;
  http : list request -> request -> reply
}.

Definition addr : Type := nat.

(** The headers dicts are mutable objects that several items share, so
    they live in a heap and are held by address.  The trace lists the
    requests sent so far, oldest first. *)
Record state : Type := {
  heap : list (dict json);
  trace : list request
}.

Definition init : state := {| heap := []; trace := [] |}.

Definition M (A : Type) : Type := state -> result A * state.

Definition ret {A : Type} (a : A) : M A := fun s => (Ok a, s).

Definition bind {A B : Type} (m : M A) (k : A -> M B) : M B :=
  fun s =>
    match m s with
    | (Ok a, s') => k a s'
    | (Raise e, s') => (Raise e, s')
    end.

Definition lift {A : Type} (r : result A) : M A := fun s => (r, s).

Declare Scope py_scope.
Delimit Scope py_scope with py.
Notation "x <- m ;; k" := (bind m (fun x => k))
  (at level 61, m at next level, right associativity) : py_scope.
Notation "m ;; k" := (bind m (fun _ => k))
  (at level 61, right associativity) : py_scope.
Local Open Scope py_scope.

Fixpoint mapM {A B : Type} (f : A -> M B) (l : list A) : M (list B) :=
  match l with
  | [] => ret []
  | x :: r => y <- f x ;; ys <- mapM f r ;; ret (y :: ys)
  end.

(** A new dict object. *)
Definition alloc (d : dict json) : M addr :=
  fun s => (Ok (length (heap s)), {| heap := heap s ++ [d]; trace := trace s |}).

Definition heap_get (a : addr) (s : state) : dict json := nth a (heap s) [].

Definition deref (a : addr) : M (dict json) := fun s => (Ok (heap_get a s), s).

Fixpoint update {A : Type} (a : nat) (f : A -> A) (l : list A) : list A :=
  match l, a with
  | [], _ => []
  | x :: r, O => f x :: r
  | x :: r, S a' => x :: update a' f r
  end.

(** [obj[k] = v] on the dict object at [a]. *)
Definition heap_set (a : addr) (k : string) (v : json) : M unit :=
  fun s => (Ok tt, {| heap := update a (dict_set k v) (heap s); trace := trace s |}).

(** [raise_for_status()] raises on a 4xx or 5xx status. *)
Definition is_error (status : Z) : bool := ((400 <=? status) && (status <? 600))%Z.

Definition send (w : world) (rq : request) : M reply :=
  fun s => (Ok (http w (trace s) rq), {| heap := heap s; trace := trace s ++ [rq] |}).

(** ** The program *)

Record config : Type := {
  BaseUrl : string;
  KeyName : string;
  Region : string
}.

Definition API_CONFIGS : list config :=
  [ {| BaseUrl := "https://partners-us-east1.zeronetworks.com/api/v1/internal";
       KeyName := "us_east1_key"; Region := "us-east1" |};
    {| BaseUrl := "https://partners-eu-west12.zeronetworks.com/api/v1/internal";
       KeyName := "eu_west12_key"; Region := "eu-west12" |} ].

Definition DEPLOYMENTS_URI : string := "/deployments".

(** [os.environ.get("SLACK_CHANNEL", "C123ABC456")] *)
Definition SLACK_CHANNEL (w : world) : string :=
  match environ w "SLACK_CHANNEL" with
  | Some c => c
  | None => "C123ABC456"
  end.

(** What [invoke_api_call] returns for a reply: the decoded body, or [None]
    when no response came, the status is an error or the body is not
    JSON. *)
Definition api_result (r : reply) : json :=
  match r with
  | NoReply => JNull
  | Reply status body =>
      if is_error status then JNull
      else match body with
           | Some j => j
           | None => JNull
           end
  end.

Definition invoke_api_call (w : world) (base_url : json) (endpoint : string)
  (headers : addr) : M json :=
  let full_url := (Repr.str base_url ++ endpoint)%string in
  hs <- deref headers ;;
  r <- send w (Get full_url hs) ;;
  ret (api_result r).

(** An environment item: the dict decoded from the API's answer.  Its
    entries hold JSON data, but for ['_headers'], which the handler binds to
    the headers dict of the region, an object in the heap. *)
Record item : Type := {
  entries : dict json;
  headers_obj : option addr
}.

(** [env.get(k)] for a key other than ['_headers']. *)
Definition item_get (k : string) (env : item) : json := get_or_none k (entries env).

Definition header_block : json :=
  JDict [("type", JStr "header");
         ("text", JDict [("type", JStr "plain_text");
                         ("text", JStr "Select Environment to pull logs");
                         ("emoji", JBool true)])].

Definition section (text : string) : json :=
  JDict [("type", JStr "section");
         ("text", JDict [("type", JStr "mrkdwn"); ("text", JStr text)])].

Definition emoji_of (env : item) : string :=
  if eq_str (item_get "region" env) "us-east1" then ":football:" else ":soccer:".

Definition env_name_of (env : item) : json :=
  py_or (py_or (item_get "Name" env) (item_get "name" env)) (JStr "Unknown Name").

Definition env_id_of (env : item) : json :=
  py_or (item_get "id" env) (JStr "Unknown ID").

Definition env_section (env : item) : json :=
  section (emoji_of env ++ " `" ++ Repr.str (env_name_of env) ++ " : "
           ++ Repr.str (env_id_of env) ++ "`")%string.

(** The payload a button carries. *)
Definition button_payload (env_id region deployment : json) : json :=
  JDict [("id", env_id); ("region", region); ("deployment", deployment)].

Definition style_of (state : json) : string :=
  if eq_str state "Primary" then "primary" else "danger".

(** The body of the loop over the deployments: the block of one button. *)
Definition deployment_block (env_id region dep : json) : result json :=
  rbind (py_get dep "id") (fun dep_id =>
  let value := Json.dumps (button_payload env_id region dep_id) in
  rbind (py_get dep "state") (fun dep_state =>
  let style := style_of dep_state in
  rbind (py_get dep "name") (fun name =>
  let dep_name := py_or name (JStr "Unnamed Deployment") in
  Ok (JDict [("type", JStr "actions");
             ("elements",
              JList [JDict [("type", JStr "button");
                            ("text", JDict [("type", JStr "plain_text");
                                            ("emoji", JBool true);
                                            ("text", JStr ("Get Logs for "
                                                           ++ Repr.str dep_name))]);
                            ("value", JStr value);
                            ("action_id", JStr "get_logs");
                            ("style", JStr style)]])])))).

(** [env.get('_headers', {}).copy()] *)
Definition copy_headers (env : item) : M addr :=
  match headers_obj env with
  | Some a => d <- deref a ;; alloc d
  | None =>
      match dict_get "_headers" (entries env) with
      | None => a <- alloc [] ;; d <- deref a ;; alloc d
      | Some (JDict d) => alloc d
      | Some (JList _) => lift (Raise TypeError)
      | Some _ => lift (Raise AttributeError)
      end
  end.

Definition no_deployments_for_env : json :=
  section "_No deployments found for this environment._".
Definition error_fetching : json := section "*Error fetching deployments.*".
Definition no_deployments : json := section "*No deployments found.*".

(** What the formatter appends after the section of an environment, from
    the answer to the deployments call. *)
Definition deployment_blocks (env : item) (deployment_response : json) :
  result (list json) :=
  rbind (if truthy deployment_response
         then py_in "detailedDeploymentsFormatted" deployment_response
         else Ok false) (fun found =>
  if found then
    rbind (py_subscript deployment_response "detailedDeploymentsFormatted")
      (fun deployments =>
    if negb (truthy deployments) then Ok [no_deployments_for_env]
    else
      rbind (py_iter deployments) (fun deps =>
      rmap (deployment_block (env_id_of env) (item_get "region" env)) deps))
  else
    match deployment_response with
    | JNull => Ok [error_fetching]
    | _ => Ok [no_deployments]
    end).

(** The body of the loop over the environments: the blocks it appends. *)
Definition format_env (w : world) (env : item) : M (list json) :=
  let env_block := env_section env in
  deployment_headers <- copy_headers env ;;
  heap_set deployment_headers "zn-env-id" (env_id_of env) ;;
  let base_url := item_get "_baseUrl" env in
  deployment_response <- invoke_api_call w base_url DEPLOYMENTS_URI deployment_headers ;;
  blocks <- lift (deployment_blocks env deployment_response) ;;
  ret (env_block :: blocks).

(** The loop over the environments. *)
Definition format_envs (w : world) (environments : list item) : M (list (list json)) :=
  mapM (format_env w) environments.

Definition format_slack_message (w : world) (environments : list item) : M json :=
  blocks <- format_envs w environments ;;
  ret (JDict [("channel", JStr (SLACK_CHANNEL w));
              ("text", JStr "Get Support Details");
              ("blocks", JList (header_block :: concat blocks))]).

(** The search path of a region's API for the environments whose name
    includes [text]. *)
Definition env_uri_of (text : string) : string :=
  ("/provisioning/environments/?"
   ++ Url.urlencode
        [("_filters",
          Json.dumps (JList [JDict [("id", JStr "name");
                                    ("includeValues", JList [JStr text]);
                                    ("excludeValues", JList [])]]));
         ("_limit", "5")])%string.

(** [item['region'] = ...; item['_baseUrl'] = ...; item['_headers'] = headers]:
    only a dict can be assigned to by key. *)
Definition tag (c : config) (headers : addr) (it : json) : result item :=
  match it with
  | JDict d =>
      Ok {| entries := dict_set "_baseUrl" (JStr (BaseUrl c))
                         (dict_set "region" (JStr (Region c)) d);
            headers_obj := Some headers |}
  | _ => Raise TypeError
  end.

(** The body of the loop over the regions. *)
Definition aggregate_region (w : world) (env_uri : string)
  (aggregated_results : list item) (c : config) : M (list item) :=
  match environ w (KeyName c) with
  | None => ret aggregated_results
  | Some secret_value =>
      if (secret_value =? "")%string then ret aggregated_results
      else
        headers <- alloc [("Authorization", JStr secret_value);
                          ("content-type", JStr "application/json")] ;;
        response_obj <- invoke_api_call w (JStr (BaseUrl c)) env_uri headers ;;
        found <- lift (if truthy response_obj then py_in "items" response_obj
                       else Ok false) ;;
        if found then
          items <- lift (rbind (py_subscript response_obj "items") py_iter) ;;
          tagged <- lift (rmap (tag c headers) items) ;;
          ret (aggregated_results ++ tagged)
        else ret aggregated_results
  end.

Fixpoint aggregate (w : world) (env_uri : string) (configs : list config)
  (aggregated_results : list item) : M (list item) :=
  match configs with
  | [] => ret aggregated_results
  | c :: rest =>
      results <- aggregate_region w env_uri aggregated_results c ;;
      aggregate w env_uri rest results
  end.

(** [jsonify({"response_type": "ephemeral", "text": text})] *)
Definition ephemeral (text : string) : json :=
  JDict [("response_type", JStr "ephemeral"); ("text", JStr text)].

Definition usage_text : string :=
  "Please provide an environment name to search for. Usage: `/your-command <env-name>`".
Definition misconfigured_text : string :=
  "Error: The Slack webhook is not configured on the server.".
Definition critical_text : string :=
  "A critical error occurred while processing your request.".
Definition no_results_text (text : string) : string :=
  ("No results found for '" ++ text ++ "' in any region.")%string.
Definition found_text (n : nat) : string :=
  ("Found " ++ NilEmpty.string_of_uint (Nat.to_uint n)
   ++ " matching environments. Details sent to the designated channel.")%string.

(** [body.get('text', [None])[0]], where [body] is the form that [parse_qs]
    decoded from the request: each field with the list of its values. *)
Definition text_of (body : dict (list string)) : result (option string) :=
  match dict_get "text" body with
  | None => Ok None
  | Some [] => Raise IndexError
  | Some (t :: _) => Ok (Some t)
  end.

(** [requests.post(...)] then [raise_for_status()] *)
Definition post_message (w : world) (webhook_url : string) (message : json) : M unit :=
  r <- send w (Post webhook_url [("Content-Type", JStr "application/json")] message) ;;
  match r with
  | NoReply => lift (Raise RequestException)
  | Reply status _ =>
      if is_error status then lift (Raise RequestException) else ret tt
  end.

(** The [try] block of the handler. *)
Definition slack_trigger_try (w : world) (body : dict (list string)) : M (json * Z) :=
  text <- lift (text_of body) ;;
  match text with
  | None => ret (ephemeral usage_text, 200%Z)
  | Some text =>
      if (text =? "")%string then ret (ephemeral usage_text, 200%Z)
      else
        let env_uri := env_uri_of text in
        aggregated_results <- aggregate w env_uri API_CONFIGS [] ;;
        match aggregated_results with
        | _ :: _ =>
            slack_message <- format_slack_message w aggregated_results ;;
            match environ w "SLACK_WEBHOOK_URL" with
            | None => ret (ephemeral misconfigured_text, 500%Z)
            | Some webhook_url =>
                if (webhook_url =? "")%string
                then ret (ephemeral misconfigured_text, 500%Z)
                else
                  post_message w webhook_url slack_message ;;
                  ret (ephemeral (found_text (length aggregated_results)), 200%Z)
            end
        | [] => ret (ephemeral (no_results_text text), 200%Z)
        end
  end.

(** The health check of the route [GET /]. *)
Definition health_check : string * Z := ("Service is healthy.", 200%Z).

(** The handler: any exception becomes the generic response. *)
Definition slack_trigger (w : world) (body : dict (list string)) :
  (json * Z) * state :=
  match slack_trigger_try w body init with
  | (Ok response, s) => (response, s)
  | (Raise _, s) => ((ephemeral critical_text, 500%Z), s)
  end.

(** ** A sample run *)

Module Sample.

Definition deployments : json :=
  JDict [("detailedDeploymentsFormatted",
          JList [JDict [("id", JStr "d1"); ("name", JStr "blue");
                        ("state", JStr "Primary")];
                 JDict [("id", JStr "d2"); ("name", JStr "green");
                        ("state", JStr "Secondary")]])].

Definition environments : json :=
  JDict [("items", JList [JDict [("id", JStr "e1"); ("name", JStr "prod-1")]])].

Definition answer (rq : request) : reply :=
  match rq with
  | Get url _ =>
      if contains "/deployments" url then Reply 200 (Some deployments)
      else Reply 200 (Some environments)
  | Post _ _ _ => Reply 200 None
  end.

Definition env_vars (webhook : bool) (name : string) : option string :=
  if (name =? "us_east1_key")%string then Some "secret"
  else if (name =? "SLACK_WEBHOOK_URL")%string
       then (if webhook then Some "https://hooks.example/T1" else None)
       else None.

Definition w (webhook : bool) : world :=
  {| environ := env_vars webhook; http := fun _ => answer |}.

Definition prod : dict (list string) := [("text", ["prod"])].

(** A deployments answer that lists ids where objects are expected. *)
Definition ids_only : json :=
  JDict [("detailedDeploymentsFormatted", JList [JStr "d1"; JStr "d2"])].

Definition answer_ids (rq : request) : reply :=
  match rq with
  | Get url _ =>
      if contains "/deployments" url then Reply 200 (Some ids_only)
      else Reply 200 (Some environments)
  | Post _ _ _ => Reply 200 None
  end.

Definition w_ids : world :=
  {| environ := env_vars false; http := fun _ => answer_ids |}.


(** The deployments API is down. *)
Definition answer_down (rq : request) : reply :=
  match rq with
  | Get url _ =>
      if contains "/deployments" url then Reply 503 None
      else Reply 200 (Some environments)
  | Post _ _ _ => Reply 200 None
  end.

Definition w_down : world :=
  {| environ := env_vars true; http := fun _ => answer_down |}.

(** An item as the aggregator tags it, with its headers dict at address 0. *)
Definition env1 : item :=
  {| entries := [("id", JStr "e1"); ("name", JStr "prod-1");
                 ("region", JStr "us-east1");
                 ("_baseUrl",
                  JStr "https://partners-us-east1.zeronetworks.com/api/v1/internal")];
     headers_obj := Some 0 |}.

(** The state in which the search for prod leaves the handler. *)
Definition s1 : state :=
  snd (aggregate (w true) (env_uri_of "prod") API_CONFIGS [] init).

(** The message the formatter returns for [env1], and the state it leaves. *)
Definition message : json :=
  match fst (format_slack_message (w true) [env1] s1) with
  | Ok m => m
  | Raise _ => JNull
  end.

Definition s2 : state := snd (format_slack_message (w true) [env1] s1).

(** No network at all. *)
Definition w_dead : world :=
  {| environ := env_vars true; http := fun _ _ => NoReply |}.

Definition no_config : config := {| BaseUrl := ""; KeyName := ""; Region := "" |}.

(** The webhook answers 404. *)
Definition answer_hook_down (rq : request) : reply :=
  match rq with
  | Get _ _ => answer rq
  | Post _ _ _ => Reply 404 None
  end.

Definition w_hook_down : world :=
  {| environ := env_vars true; http := fun _ => answer_hook_down |}.

(** A search answer that lists names where objects are expected. *)
Definition w_names : world :=
  {| environ := env_vars true;
     http := fun _ _ => Reply 200 (Some (JDict [("items", JList [JStr "prod-1"])])) |}.

End Sample.

(** ** Vocabulary of the properties *)

Definition is_get (rq : request) : bool :=
  match rq with
  | Get _ _ => true
  | Post _ _ _ => false
  end.

(** From [s] to [s']: the heap only got new objects, and the requests sent
    in between all satisfy [P]. *)
Definition steps (P : request -> Prop) (s s' : state) : Prop :=
  (exists new, heap s' = heap s ++ new)
  /\ (exists sent, trace s' = trace s ++ sent /\ Forall P sent).

(** Reading a block: its type, and a field of its one button. *)
Definition block_type (block : json) : option json :=
  match block with
  | JDict d => dict_get "type" d
  | _ => None
  end.

Definition button_field (k : string) (block : json) : option json :=
  match block with
  | JDict d =>
      match dict_get "elements" d with
      | Some (JList [JDict button]) => dict_get k button
      | _ => None
      end
  | _ => None
  end.

(** The credential of a region: the value of its environment variable,
    when set to a non-empty str. *)
Definition credential (w : world) (c : config) : option string :=
  match environ w (KeyName c) with
  | Some secret => if (secret =? "")%string then None else Some secret
  | None => None
  end.

(** The headers dict the handler builds for a region. *)
Definition auth_headers (secret : string) : dict json :=
  [("Authorization", JStr secret); ("content-type", JStr "application/json")].

(** An item carries the tags of a region of [configs] whose credential is
    set: its label, its base URL and, by reference, its headers dict. *)
Definition tagged (w : world) (configs : list config) (s : state) (env : item) : Prop :=
  exists c secret a,
    In c configs /\ credential w c = Some secret
    /\ dict_get "region" (entries env) = Some (JStr (Region c))
    /\ dict_get "_baseUrl" (entries env) = Some (JStr (BaseUrl c))
    /\ headers_obj env = Some a
    /\ a < length (heap s)
    /\ heap_get a s = auth_headers secret.

(** A request to the API of a region of [configs] whose credential is set,
    with that credential as its authorization. *)
Definition region_request (w : world) (configs : list config) (rq : request) : Prop :=
  exists c secret endpoint hs,
    In c configs /\ credential w c = Some secret
    /\ rq = Get (BaseUrl c ++ endpoint)%string hs
    /\ dict_get "Authorization" hs = Some (JStr secret).

(** The headers dict the formatter copies for an environment. *)
Definition headers_of (env : item) (s : state) : dict json :=
  match headers_obj env with
  | Some a => heap_get a s
  | None =>
      match dict_get "_headers" (entries env) with
      | Some (JDict d) => d
      | _ => []
      end
  end.

(** Whether ['_headers'] is absent or a dict, so that [.copy()] and the
    assignment of the ['zn-env-id'] header go through. *)
Definition copyable (env : item) : bool :=
  match headers_obj env with
  | Some _ => true
  | None =>
      match dict_get "_headers" (entries env) with
      | None | Some (JDict _) => true
      | Some _ => false
      end
  end.

(** The deployments request of an environment, and what [invoke_api_call]
    gives for it, in state [s]. *)
Definition deployments_request (env : item) (s : state) : request :=
  Get (Repr.str (item_get "_baseUrl" env) ++ DEPLOYMENTS_URI)%string
      (dict_set "zn-env-id" (env_id_of env) (headers_of env s)).

Definition deployments_answer (w : world) (env : item) (s : state) : json :=
  api_result (http w (trace s) (deployments_request env s)).

(** An answer to the deployments call of the expected shape: the failure
    value, or a dict that lacks the deployments key, holds a false value
    under it, or lists deployment objects. *)
Definition is_dict (v : json) : bool :=
  match v with
  | JDict _ => true
  | _ => false
  end.

Definition well_shaped (answer : json) : bool :=
  match answer with
  | JNull => true
  | JDict d =>
      match dict_get "detailedDeploymentsFormatted" d with
      | None => true
      | Some (JList l) => forallb is_dict l
      | Some v => negb (truthy v)
      end
  | _ => false
  end.

(** The tags [tag] puts on an item. *)
Definition tags_of (c : config) (a : addr) (env : item) : Prop :=
  dict_get "region" (entries env) = Some (JStr (Region c))
  /\ dict_get "_baseUrl" (entries env) = Some (JStr (BaseUrl c))
  /\ headers_obj env = Some a.

(** What the proof that decoding inverts encoding speaks of. *)
Module Shape.
Import Json.

(** What may follow an int in a text: not a digit, and nothing that would
    make it a float. *)
Definition ends_number (s : string) : bool :=
  match s with
  | String c _ =>
      match digit_of c with
      | Some _ => false
      | None => negb (float_follows s)
      end
  | EmptyString => true
  end.

(** The first character of an encoded value: not a blank and not a
    closing bracket. *)
Definition head_ok (s : string) : bool :=
  match s with
  | String c _ =>
      negb (is_ws c) && negb (Ascii.eqb c "]") && negb (Ascii.eqb c "}")
  | EmptyString => false
  end.

Definition starts_int (s : string) : bool :=
  match s with
  | String c _ =>
      match digit_of c with
      | Some _ => true
      | None => Ascii.eqb c "-"
      end
  | EmptyString => false
  end.

(** The fuel a value needs. *)
Fixpoint size (v : json) : nat :=
  match v with
  | JList l => S (list_sum (map (fun x => S (size x)) l))
  | JDict d => S (list_sum (map (fun kv => S (size (snd kv))) d))
  | _ => 1
  end.

Definition scans (v : json) : Prop :=
  wf_json v = true ->
  forall (fuel : nat) (rest : string),
    size v <= fuel -> ends_number rest = true ->
    scan_value fuel (dumps v ++ rest) = Some (v, rest).

End Shape.

(** ** Vocabulary of the further properties *)

(** The items the aggregator goes through for an answer of a region: none
    when the answer is false or has no ['items']. *)
Definition items_of_answer (response_obj : json) : result (list json) :=
  rbind (if truthy response_obj then py_in "items" response_obj else Ok false)
    (fun found =>
       if found then rbind (py_subscript response_obj "items") py_iter
       else Ok []).

(** The entries of an item once tagged. *)
Definition tag_entries (c : config) (d : dict json) : dict json :=
  dict_set "_baseUrl" (JStr (BaseUrl c)) (dict_set "region" (JStr (Region c)) d).

(** The search request of a region, and the answer [invoke_api_call] gives
    for it in state [s]. *)
Definition search_request (c : config) (uri secret : string) : request :=
  Get (BaseUrl c ++ uri)%string (auth_headers secret).

Definition search_answer (w : world) (c : config) (uri secret : string)
  (s : state) : json :=
  api_result (http w (trace s) (search_request c uri secret)).

(** The search requests of a list of regions: one for each region with a
    credential. *)
Definition search_requests (w : world) (uri : string) (configs : list config) :
  list request :=
  flat_map (fun c =>
              match credential w c with
              | Some secret => [search_request c uri secret]
              | None => []
              end) configs.

(** The filter the handler sends for a search text. *)
Definition filters_of (text : string) : json :=
  JList [JDict [("id", JStr "name");
                ("includeValues", JList [JStr text]);
                ("excludeValues", JList [])]].

(** The characters [quote_plus] lets through or produces. *)
Definition url_char (c : ascii) : bool :=
  Url.always_safe c || Ascii.eqb c "+" || Ascii.eqb c "%".

(** * Properties *)

(** Induction that reaches the elements of lists and the values of dicts. *)
Lemma json_nested_ind (P : json -> Prop)
  (HNull : P JNull)
  (HBool : forall b, P (JBool b))
  (HInt : forall n, P (JInt n))
  (HStr : forall s, P (JStr s))
  (HList : forall l, Forall P l -> P (JList l))
  (HDict : forall d, Forall (fun kv => P (snd kv)) d -> P (JDict d)) :
  forall v, P v.
Proof.
  fix IH 1.
  intros [ | b | n | s | l | d ].
  - exact HNull.
  - apply HBool.
  - apply HInt.
  - apply HStr.
  - apply HList.
    induction l as [ | x l IHl ]; constructor; [ apply IH | exact IHl ].
  - apply HDict.
    induction d as [ | [k x] d IHd ]; constructor; [ apply IH | exact IHd ].
Qed.

(** ** Decoding what was encoded gives the value back *)

Module JsonFacts.
Import Json Shape.

Lemma append_assoc (a b c : string) : ((a ++ b) ++ c = a ++ (b ++ c))%string.
Proof.
  induction a as [ | x a IHa ]; simpl; [ reflexivity | now rewrite IHa ].
Qed.

Lemma length_append (a b : string) :
  String.length (a ++ b) = String.length a + String.length b.
Proof.
  induction a as [ | x a IHa ]; simpl; [ reflexivity | now rewrite IHa ].
Qed.

(** Strings *)

Lemma scan_string_escape_char (c : ascii) (t : string) :
  scan_string (escape_char c ++ t) = cons_char c (scan_string t).
Proof.
  destruct c as [[] [] [] [] [] [] [] []]; reflexivity.
Qed.

Lemma scan_string_escape (s rest : string) :
  scan_string (escape_string s ++ String dquote rest) = Some (s, rest).
Proof.
  induction s as [ | c s IHs ]; simpl.
  - reflexivity.
  - rewrite append_assoc, scan_string_escape_char, IHs. reflexivity.
Qed.

(** Numbers *)

Lemma scan_digits_end (rest : string) :
  ends_number rest = true -> scan_digits rest = (Nil, rest).
Proof.
  destruct rest as [ | c rest ]; simpl; [ reflexivity | ].
  destruct (digit_of c); [ discriminate | reflexivity ].
Qed.

Lemma scan_digits_uint (u : uint) (rest : string) :
  ends_number rest = true ->
  scan_digits (NilEmpty.string_of_uint u ++ rest) = (u, rest).
Proof.
  intros Hrest.
  induction u as [ | u IHu | u IHu | u IHu | u IHu | u IHu
                   | u IHu | u IHu | u IHu | u IHu | u IHu ];
    simpl; try rewrite IHu; try reflexivity.
  now apply scan_digits_end.
Qed.

Lemma float_follows_end (rest : string) :
  ends_number rest = true -> float_follows rest = false.
Proof.
  destruct rest as [ | c rest ]; simpl; [ reflexivity | ].
  destruct (digit_of c); [ discriminate | ].
  intros H. now apply negb_true_iff in H.
Qed.

Lemma canonical_to_uint (p : positive) : canonical (Pos.to_uint p) = true.
Proof.
  pose proof (DecimalPos.Unsigned.to_uint_nonnil p) as Hnil.
  pose proof (DecimalPos.Unsigned.to_of (Pos.to_uint p)) as Hnorm.
  rewrite DecimalPos.Unsigned.of_to in Hnorm. simpl in Hnorm.
  destruct (Pos.to_uint p) as [ | u | u | u | u | u | u | u | u | u | u ];
    try reflexivity; [ congruence | ].
  destruct u as [ | v | v | v | v | v | v | v | v | v | v ];
    try reflexivity; exfalso;
    rewrite DecimalFacts.unorm_D0 in Hnorm;
    match type of Hnorm with
    | D0 ?w = unorm ?w =>
        assert (Hw : w <> Nil) by discriminate;
        pose proof (DecimalFacts.nb_digits_unorm w Hw) as Hlen;
        rewrite <- Hnorm in Hlen; simpl in Hlen; lia
    end.
Qed.

Lemma scan_int_first (u : uint) (rest : string) :
  canonical u = true ->
  scan_int (NilEmpty.string_of_uint u ++ rest)
  = finish_int Pos (scan_digits (NilEmpty.string_of_uint u ++ rest)).
Proof.
  destruct u; simpl; try reflexivity; discriminate.
Qed.

Lemma scan_int_dumps (n : Z) (rest : string) :
  ends_number rest = true ->
  scan_int (dumps_int n ++ rest) = Some (JInt n, rest).
Proof.
  intros Hrest. unfold dumps_int.
  pose proof (DecimalZ.of_to n) as Hn.
  destruct n as [ | p | p ]; simpl Z.to_int in *.
  - simpl. rewrite (scan_digits_end _ Hrest). simpl.
    now rewrite (float_follows_end _ Hrest).
  - unfold NilEmpty.string_of_int.
    rewrite scan_int_first by apply canonical_to_uint.
    rewrite scan_digits_uint by assumption.
    unfold finish_int.
    rewrite canonical_to_uint, (float_follows_end _ Hrest). simpl andb.
    cbv iota. now rewrite Hn.
  - unfold NilEmpty.string_of_int. simpl append. unfold scan_int.
    rewrite scan_digits_uint by assumption.
    unfold finish_int.
    rewrite canonical_to_uint, (float_follows_end _ Hrest). simpl andb.
    cbv iota. now rewrite Hn.
Qed.

(** Values *)

Lemma dumps_list (l : list json) :
  dumps (JList l) = ("[" ++ dumps_items l ++ "]")%string.
Proof. reflexivity. Qed.

Lemma dumps_dict (d : list (string * json)) :
  dumps (JDict d) = ("{" ++ dumps_members d ++ "}")%string.
Proof. reflexivity. Qed.

Lemma dumps_items_cons (x y : json) (r : list json) :
  dumps_items (x :: y :: r) = (dumps x ++ ", " ++ dumps_items (y :: r))%string.
Proof. reflexivity. Qed.

Lemma dumps_members_cons (k : string) (x : json) (kv : string * json)
  (r : list (string * json)) :
  dumps_members ((k, x) :: kv :: r)
  = (dumps_str k ++ ": " ++ dumps x ++ ", " ++ dumps_members (kv :: r))%string.
Proof. reflexivity. Qed.

Lemma uint_head (u : uint) (t : string) :
  u <> Nil -> starts_int (NilEmpty.string_of_uint u ++ t) = true.
Proof. destruct u; simpl; congruence. Qed.

Lemma dumps_int_head (n : Z) (t : string) : starts_int (dumps_int n ++ t) = true.
Proof.
  destruct n as [ | p | p ]; unfold dumps_int; simpl Z.to_int;
    try reflexivity.
  apply uint_head, DecimalPos.Unsigned.to_uint_nonnil.
Qed.

Lemma starts_int_head_ok (s : string) : starts_int s = true -> head_ok s = true.
Proof.
  destruct s as [ | c s ]; simpl; [ discriminate | ].
  destruct c as [[] [] [] [] [] [] [] []]; simpl; congruence.
Qed.

Lemma dumps_head (v : json) (t : string) : head_ok (dumps v ++ t) = true.
Proof.
  destruct v as [ | [] | n | s | l | d ]; try reflexivity.
  apply starts_int_head_ok, dumps_int_head.
Qed.

Lemma skip_ws_head (s : string) : head_ok s = true -> skip_ws s = s.
Proof.
  destruct s as [ | c s ]; simpl; [ reflexivity | ].
  destruct (is_ws c); [ discriminate | reflexivity ].
Qed.

Lemma scan_value_int (fuel : nat) (s : string) :
  starts_int s = true -> scan_value (S fuel) s = scan_int s.
Proof.
  destruct s as [ | c s ]; simpl starts_int; [ discriminate | ].
  destruct c as [[] [] [] [] [] [] [] []]; simpl; congruence.
Qed.

Lemma scan_value_str (fuel : nat) (t : string) :
  scan_value (S fuel) (String dquote t)
  = match scan_string t with
    | Some (str, r) => Some (JStr str, r)
    | None => None
    end.
Proof. reflexivity. Qed.

Lemma scan_value_list (fuel : nat) (t : string) :
  head_ok t = true ->
  scan_value (S fuel) (String "[" t)
  = match scan_items fuel t with
    | Some (l, r) => Some (JList l, r)
    | None => None
    end.
Proof.
  destruct t as [ | c t ]; simpl head_ok; [ discriminate | ].
  destruct c as [[] [] [] [] [] [] [] []]; simpl; congruence.
Qed.

Lemma scan_value_dict (fuel : nat) (t : string) :
  head_ok t = true ->
  scan_value (S fuel) (String "{" t)
  = match scan_members fuel t with
    | Some (m, r) => Some (JDict (dict_of_pairs m), r)
    | None => None
    end.
Proof.
  destruct t as [ | c t ]; simpl head_ok; [ discriminate | ].
  destruct c as [[] [] [] [] [] [] [] []]; simpl; congruence.
Qed.

Lemma append_nil_r (a : string) : (a ++ "")%string = a.
Proof.
  induction a as [ | x a IHa ]; simpl; [ reflexivity | now rewrite IHa ].
Qed.

Lemma dumps_items_head (x : json) (l : list json) (t : string) :
  head_ok (dumps_items (x :: l) ++ t) = true.
Proof.
  destruct l as [ | y r ].
  - apply dumps_head.
  - rewrite dumps_items_cons, append_assoc. apply dumps_head.
Qed.

Lemma dumps_members_head (kv : string * json) (d : list (string * json))
  (t : string) :
  exists t', (dumps_members (kv :: d) ++ t)%string = String dquote t'.
Proof.
  destruct kv as [k x]. destruct d as [ | kv' r ]; eexists; reflexivity.
Qed.

Lemma scan_items_step (fuel : nat) (s t : string) (x : json) :
  scan_value fuel s = Some (x, String "," (String " " t)) ->
  head_ok t = true ->
  scan_items (S fuel) s
  = match scan_items fuel t with
    | Some (vs, r) => Some (x :: vs, r)
    | None => None
    end.
Proof.
  intros Hs Ht. simpl. rewrite Hs. simpl. now rewrite (skip_ws_head _ Ht).
Qed.

Lemma scan_items_last (fuel : nat) (s rest : string) (x : json) :
  scan_value fuel s = Some (x, String "]" rest) ->
  scan_items (S fuel) s = Some ([x], rest).
Proof. intros Hs. simpl. now rewrite Hs. Qed.

Lemma scan_members_key (fuel : nat) (k : string) (x : json) (t tail : string) :
  scan_value fuel t = Some (x, tail) ->
  head_ok t = true ->
  scan_members (S fuel) (dumps_str k ++ ": " ++ t)
  = match skip_ws tail with
    | String "," r =>
        match scan_members fuel (skip_ws r) with
        | Some (m, r') => Some ((k, x) :: m, r')
        | None => None
        end
    | String "}" r => Some ([(k, x)], r)
    | _ => None
    end%char.
Proof.
  intros Ht Hhead. unfold dumps_str.
  change (String dquote (escape_string k ++ String dquote "") ++ ": " ++ t)%string
    with (String dquote ((escape_string k ++ String dquote "") ++ ": " ++ t))%string.
  rewrite append_assoc.
  change (String dquote "" ++ ": " ++ t)%string
    with (String dquote (String ":" (String " " t))).
  cbn [scan_members]. change (Ascii.eqb dquote dquote) with true. cbv iota.
  rewrite scan_string_escape. cbn [skip_ws is_ws].
  rewrite (skip_ws_head _ Hhead), Ht. reflexivity.
Qed.

(** Distinct keys: the pairs read are the dict. *)

Lemma dict_set_fresh (k : string) (v : json) (d : dict json) :
  existsb (String.eqb k) (map fst d) = false -> dict_set k v d = d ++ [(k, v)].
Proof.
  induction d as [ | [k' v'] d IHd ]; simpl; [ reflexivity | ].
  intros H. apply orb_false_iff in H as [Hk Hd].
  rewrite Hk. now rewrite IHd.
Qed.

Lemma dict_of_pairs_from (acc d : list (string * json)) :
  nodupb (map fst (acc ++ d)) = true ->
  fold_left (fun d kv => dict_set (fst kv) (snd kv) d) d acc = acc ++ d.
Proof.
  revert acc. induction d as [ | [k v] d IHd ]; intros acc Hnd; simpl.
  - now rewrite app_nil_r.
  - assert (Hfresh : existsb (String.eqb k) (map fst acc) = false).
    { clear IHd. induction acc as [ | [k' v'] acc IHacc ]; [ reflexivity | ].
      simpl in Hnd. apply andb_true_iff in Hnd as [Hk' Hrest].
      simpl. rewrite (IHacc Hrest), orb_false_r.
      apply negb_true_iff in Hk'.
      rewrite map_app, existsb_app in Hk'. apply orb_false_iff in Hk' as [_ Hk'].
      simpl in Hk'. apply orb_false_iff in Hk' as [Hk' _].
      now rewrite String.eqb_sym. }
    rewrite dict_set_fresh by exact Hfresh.
    rewrite IHd; rewrite <- app_assoc; [ reflexivity | exact Hnd ].
Qed.

Lemma dict_of_pairs_nodup (d : list (string * json)) :
  nodupb (map fst d) = true -> dict_of_pairs d = d.
Proof. intros H. unfold dict_of_pairs. now rewrite dict_of_pairs_from. Qed.

Lemma scan_items_dumps (l : list json) :
  Forall scans l -> forallb wf_json l = true -> l <> [] ->
  forall (fuel : nat) (rest : string),
    list_sum (map (fun x => S (size x)) l) <= fuel ->
    scan_items fuel (dumps_items l ++ String "]" rest) = Some (l, rest).
Proof.
  induction 1 as [ | x l Hx Hl IH ]; intros Hwf Hne fuel rest Hfuel;
    [ congruence | ].
  simpl in Hwf. apply andb_true_iff in Hwf as [Hwx Hwl].
  simpl in Hfuel. destruct fuel as [ | fuel ]; [ lia | ].
  destruct l as [ | y r ].
  - apply scan_items_last. apply (Hx Hwx); [ simpl in Hfuel; lia | reflexivity ].
  - rewrite dumps_items_cons, !append_assoc.
    rewrite (scan_items_step fuel _ (dumps_items (y :: r) ++ String "]" rest) x).
    + rewrite IH; [ reflexivity | assumption | discriminate | lia ].
    + apply (Hx Hwx); [ lia | reflexivity ].
    + apply dumps_items_head.
Qed.

Lemma scan_members_dumps (d : list (string * json)) :
  Forall (fun kv => scans (snd kv)) d ->
  forallb (fun kv => wf_json (snd kv)) d = true -> d <> [] ->
  forall (fuel : nat) (rest : string),
    list_sum (map (fun kv => S (size (snd kv))) d) <= fuel ->
    scan_members fuel (dumps_members d ++ String "}" rest) = Some (d, rest).
Proof.
  induction 1 as [ | [k x] d Hx Hd IH ]; intros Hwf Hne fuel rest Hfuel;
    [ congruence | ].
  simpl in Hwf, Hx. apply andb_true_iff in Hwf as [Hwx Hwd].
  simpl in Hfuel. destruct fuel as [ | fuel ]; [ lia | ].
  destruct d as [ | kv r ].
  - change (dumps_members [(k, x)]) with (dumps_str k ++ ": " ++ dumps x)%string.
    rewrite !append_assoc.
    rewrite (scan_members_key fuel k x _ (String "}" rest)).
    + reflexivity.
    + apply (Hx Hwx); [ simpl in Hfuel; lia | reflexivity ].
    + apply dumps_head.
  - rewrite dumps_members_cons, !append_assoc.
    rewrite (scan_members_key fuel k x _
               (", " ++ dumps_members (kv :: r) ++ String "}" rest)).
    + destruct (dumps_members_head kv r (String "}" rest)) as [t' Ht'].
      change (skip_ws (", " ++ dumps_members (kv :: r) ++ String "}" rest))
        with (String "," (String " " (dumps_members (kv :: r) ++ String "}" rest))).
      cbv iota. cbn [skip_ws is_ws].
      assert (Hskip : skip_ws (dumps_members (kv :: r) ++ String "}" rest)
                      = (dumps_members (kv :: r) ++ String "}" rest)%string)
        by (rewrite Ht'; reflexivity).
      rewrite Hskip, IH; [ reflexivity | assumption | discriminate | lia ].
    + apply (Hx Hwx); [ lia | reflexivity ].
    + apply dumps_head.
Qed.

Lemma scan_value_dumps (v : json) : scans v.
Proof.
  induction v as [ | b | n | s | l IHl | d IHd ] using json_nested_ind;
    intros Hwf fuel rest Hfuel Hrest;
    (destruct fuel as [ | fuel ]; [ simpl in Hfuel; lia | ]).
  - reflexivity.
  - destruct b; reflexivity.
  - simpl dumps. rewrite scan_value_int by apply dumps_int_head.
    now apply scan_int_dumps.
  - simpl dumps. unfold dumps_str.
    change (String dquote (escape_string s ++ String dquote "") ++ rest)%string
      with (String dquote ((escape_string s ++ String dquote "") ++ rest))%string.
    rewrite scan_value_str, append_assoc.
    change (String dquote "" ++ rest)%string with (String dquote rest).
    now rewrite scan_string_escape.
  - rewrite dumps_list.
    change (("[" ++ dumps_items l ++ "]") ++ rest)%string
      with (String "[" ((dumps_items l ++ "]") ++ rest))%string.
    rewrite append_assoc.
    change ("]" ++ rest)%string with (String "]" rest).
    destruct l as [ | x l ]; [ reflexivity | ].
    rewrite scan_value_list by apply dumps_items_head.
    simpl in Hwf, Hfuel.
    rewrite scan_items_dumps;
      [ reflexivity | assumption | assumption | discriminate | simpl; lia ].
  - rewrite dumps_dict.
    change (("{" ++ dumps_members d ++ "}") ++ rest)%string
      with (String "{" ((dumps_members d ++ "}") ++ rest))%string.
    rewrite append_assoc.
    change ("}" ++ rest)%string with (String "}" rest).
    destruct d as [ | kv d ]; [ reflexivity | ].
    destruct (dumps_members_head kv d (String "}" rest)) as [t' Ht'].
    rewrite scan_value_dict by (rewrite Ht'; reflexivity).
    simpl wf_json in Hwf. apply andb_true_iff in Hwf as [Hnd Hwf].
    simpl in Hfuel.
    rewrite scan_members_dumps;
      [ | assumption | assumption | discriminate | simpl; lia ].
    now rewrite dict_of_pairs_nodup.
Qed.

Lemma items_size_length (l : list json) :
  Forall (fun x => size x <= String.length (dumps x)) l ->
  list_sum (map (fun x => S (size x)) l) <= String.length (dumps_items l) + 1.
Proof.
  induction 1 as [ | x l Hx Hl IH ]; [ simpl; lia | ].
  destruct l as [ | y r ].
  - simpl. lia.
  - rewrite dumps_items_cons, !length_append.
    change (list_sum (map (fun x => S (size x)) (x :: y :: r)))
      with (S (size x) + list_sum (map (fun x => S (size x)) (y :: r))).
    change (String.length ", ") with 2. lia.
Qed.

Lemma members_size_length (d : list (string * json)) :
  Forall (fun kv => size (snd kv) <= String.length (dumps (snd kv))) d ->
  list_sum (map (fun kv => S (size (snd kv))) d)
  <= String.length (dumps_members d) + 1.
Proof.
  induction 1 as [ | [k x] d Hx Hd IH ]; [ simpl; lia | ].
  simpl in Hx. destruct d as [ | kv r ].
  - change (dumps_members [(k, x)]) with (dumps_str k ++ ": " ++ dumps x)%string.
    rewrite !length_append. simpl. lia.
  - rewrite dumps_members_cons, !length_append.
    change (list_sum (map (fun kv => S (size (snd kv))) ((k, x) :: kv :: r)))
      with (S (size x) + list_sum (map (fun kv => S (size (snd kv))) (kv :: r))).
    change (String.length ", ") with 2. lia.
Qed.

Lemma size_length (v : json) : size v <= String.length (dumps v).
Proof.
  induction v as [ | b | n | s | l IHl | d IHd ] using json_nested_ind.
  - simpl. lia.
  - destruct b; simpl; lia.
  - pose proof (dumps_int_head n "") as H. rewrite append_nil_r in H.
    simpl. destruct (dumps_int n); [ discriminate | simpl; lia ].
  - simpl. lia.
  - rewrite dumps_list, !length_append.
    pose proof (items_size_length l IHl). simpl. lia.
  - rewrite dumps_dict, !length_append.
    pose proof (members_size_length d IHd). simpl. lia.
Qed.

(** [json.loads(json.dumps(v)) == v] *)
Theorem loads_dumps (v : json) : wf_json v = true -> loads (dumps v) = Some v.
Proof.
  intros Hwf. unfold loads.
  pose proof (dumps_head v "") as Hhead. rewrite append_nil_r in Hhead.
  rewrite (skip_ws_head _ Hhead).
  pose proof (scan_value_dumps v Hwf (S (String.length (dumps v))) "") as Hscan.
  rewrite append_nil_r in Hscan.
  rewrite Hscan; [ reflexivity | | reflexivity ].
  pose proof (size_length v). lia.
Qed.

End JsonFacts.

(** ** Sample runs *)

Example dumps_sample :
  Json.dumps (JList [JInt (-12); JNull; JBool true; JDict []; JList [JInt 0]])
  = "[-12, null, true, {}, [0]]".
Proof. reflexivity. Qed.

Example loads_sample :
  Json.loads " [1 , [ ], {} ,false]" = Some (JList [JInt 1; JList []; JDict []; JBool false]).
Proof. reflexivity. Qed.

Example loads_rejects_trailing_comma : Json.loads "[1, ]" = None.
Proof. reflexivity. Qed.

Example run_prod :
  fst (slack_trigger (Sample.w true) Sample.prod) = (ephemeral (found_text 1), 200%Z)
  /\ map is_get (trace (snd (slack_trigger (Sample.w true) Sample.prod)))
     = [true; true; false].
Proof. split; reflexivity. Qed.

Example run_prod_search_finds_env1 :
  aggregate (Sample.w true) (env_uri_of "prod") API_CONFIGS [] init
  = (Ok [Sample.env1], Sample.s1).
Proof. reflexivity. Qed.

Example run_without_webhook :
  fst (slack_trigger (Sample.w false) Sample.prod)
  = (ephemeral misconfigured_text, 500%Z).
Proof. reflexivity. Qed.

Example run_with_ids_only :
  fst (slack_trigger Sample.w_ids Sample.prod) = (ephemeral critical_text, 500%Z).
Proof. reflexivity. Qed.

Example run_deployments_down :
  fst (format_env Sample.w_down Sample.env1 Sample.s1)
  = Ok [section ":football: `prod-1 : e1`"; error_fetching].
Proof. reflexivity. Qed.

(** ** The monad and the heap *)

Lemma steps_refl (P : request -> Prop) (s : state) : steps P s s.
Proof.
  split; [ exists [] | exists [] ]; rewrite ?app_nil_r; auto.
Qed.

Lemma steps_trans (P : request -> Prop) (s1 s2 s3 : state) :
  steps P s1 s2 -> steps P s2 s3 -> steps P s1 s3.
Proof.
  intros [[n1 Hh1] [t1 [Ht1 HP1]]] [[n2 Hh2] [t2 [Ht2 HP2]]]. split.
  - exists (n1 ++ n2). now rewrite Hh2, Hh1, app_assoc.
  - exists (t1 ++ t2). split.
    + now rewrite Ht2, Ht1, app_assoc.
    + apply Forall_app. now split.
Qed.

Lemma steps_weaken (P Q : request -> Prop) (s s' : state) :
  (forall rq, P rq -> Q rq) -> steps P s s' -> steps Q s s'.
Proof.
  intros HPQ [Hh [sent [Ht HP]]]. split; [ exact Hh | ].
  exists sent. split; [ exact Ht | ]. eapply Forall_impl; eauto.
Qed.

Lemma steps_heap_get (P : request -> Prop) (s s' : state) (a : addr) :
  steps P s s' -> a < length (heap s) -> heap_get a s' = heap_get a s.
Proof.
  intros [[new Hh] _] Ha. unfold heap_get. rewrite Hh. now apply app_nth1.
Qed.

Lemma steps_heap_length (P : request -> Prop) (s s' : state) :
  steps P s s' -> length (heap s) <= length (heap s').
Proof.
  intros [[new Hh] _]. rewrite Hh, length_app. lia.
Qed.

Lemma update_fresh {A : Type} (f : A -> A) (l : list A) (x : A) :
  update (length l) f (l ++ [x]) = l ++ [f x].
Proof.
  induction l as [ | y l IHl ]; simpl; [ reflexivity | now rewrite IHl ].
Qed.

Lemma nth_fresh {A : Type} (l : list A) (x d : A) : nth (length l) (l ++ [x]) d = x.
Proof. apply nth_middle. Qed.

(** ** The formatter, one environment at a time *)

(** With a ['_headers'] that can be copied, the formatter sends exactly the
    deployments request of the environment, on a fresh copy of the
    headers. *)
Lemma format_env_copyable (w : world) (env : item) (s : state) :
  copyable env = true ->
  exists new,
    format_env w env s
    = (rbind (deployment_blocks env (deployments_answer w env s))
         (fun blocks => Ok (env_section env :: blocks)),
       {| heap := heap s ++ new; trace := trace s ++ [deployments_request env s] |}).
Proof.
  intros Hc. unfold copyable in Hc.
  unfold format_env, copy_headers, deployments_answer, deployments_request,
    headers_of, invoke_api_call.
  destruct (headers_obj env) as [ a | ].
  - exists [dict_set "zn-env-id" (env_id_of env) (heap_get a s)].
    unfold bind, deref, alloc, heap_set, send, lift, ret. simpl.
    rewrite update_fresh. unfold heap_get. simpl. rewrite nth_fresh.
    destruct (deployment_blocks env _); reflexivity.
  - destruct (dict_get "_headers" (entries env)) as [ [ | | | | | d ] | ];
      try discriminate.
    + exists [dict_set "zn-env-id" (env_id_of env) d].
      unfold bind, deref, alloc, heap_set, send, lift, ret. simpl.
      rewrite update_fresh. unfold heap_get. simpl. rewrite nth_fresh.
      destruct (deployment_blocks env _); reflexivity.
    + exists [[]; dict_set "zn-env-id" (env_id_of env) []].
      unfold bind, deref, alloc, heap_set, send, lift, ret. simpl.
      unfold heap_get. simpl. rewrite !nth_fresh, length_app. simpl.
      replace (length (heap s) + 1) with (length (heap s ++ [[]]))
        by (rewrite length_app; reflexivity).
      rewrite update_fresh, nth_fresh, <- app_assoc.
      destruct (deployment_blocks env _); reflexivity.
Qed.

Lemma format_env_not_copyable (w : world) (env : item) (s : state) :
  copyable env = false -> exists e, format_env w env s = (Raise e, s).
Proof.
  intros Hc. unfold copyable in Hc. unfold format_env, copy_headers.
  destruct (headers_obj env) as [ a | ]; [ discriminate | ].
  destruct (dict_get "_headers" (entries env)) as [ [ | | | | | d ] | ];
    try discriminate; eexists; reflexivity.
Qed.

Lemma format_env_steps (w : world) (env : item) (s : state) :
  steps (fun rq => is_get rq = true) s (snd (format_env w env s)).
Proof.
  destruct (copyable env) eqn:Hc.
  - destruct (format_env_copyable w env s Hc) as [new Hrun]. rewrite Hrun.
    split; simpl; eauto.
  - destruct (format_env_not_copyable w env s Hc) as [e Hrun]. rewrite Hrun.
    apply steps_refl.
Qed.

Lemma mapM_steps {A B : Type} (P : request -> Prop) (I : state -> Prop)
  (f : A -> M B) (l : list A) :
  (forall x s, In x l -> I s -> steps P s (snd (f x s)) /\ I (snd (f x s))) ->
  forall s, I s -> steps P s (snd (mapM f l s)) /\ I (snd (mapM f l s)).
Proof.
  induction l as [ | x l IHl ]; intros Hf s Hs; simpl.
  - split; [ apply steps_refl | exact Hs ].
  - unfold bind. destruct (Hf x s (or_introl eq_refl) Hs) as [Hx HI].
    destruct (f x s) as [[y | e] s1]; simpl in Hx, HI; [ | now split ].
    assert (Hl : steps P s1 (snd (mapM f l s1)) /\ I (snd (mapM f l s1)))
      by (apply IHl; [ intros; apply Hf; [ now right | assumption ] | exact HI ]).
    destruct Hl as [Hl HI'].
    destruct (mapM f l s1) as [[ys | e] s2]; simpl in *;
      (split; [ eapply steps_trans; eauto | exact HI' ]).
Qed.

Lemma format_slack_message_steps (w : world) (envs : list item) (s : state) :
  steps (fun rq => is_get rq = true) s (snd (format_slack_message w envs s)).
Proof.
  unfold format_slack_message, format_envs, bind.
  pose proof (mapM_steps _ (fun _ => True) (format_env w) envs
                (fun x s _ _ => conj (format_env_steps w x s) Logic.I) s Logic.I)
    as [H _].
  destruct (mapM (format_env w) envs s) as [[blocks | e] s1]; exact H.
Qed.

(** With answers of the expected shape the formatter returns a message,
    however many environments there are. *)
Lemma deployment_block_dict (env_id region : json) (d : dict json) :
  exists block, deployment_block env_id region (JDict d) = Ok block.
Proof. eexists. reflexivity. Qed.

Lemma rmap_deployment_block (env_id region : json) (l : list json) :
  forallb is_dict l = true ->
  exists blocks, rmap (deployment_block env_id region) l = Ok blocks.
Proof.
  induction l as [ | [ | | | | | d ] l IHl ]; simpl; try discriminate.
  - eexists. reflexivity.
  - intros Hl. destruct (IHl Hl) as [blocks ->]. eexists. reflexivity.
Qed.

Lemma deployment_blocks_well_shaped (env : item) (answer : json) :
  well_shaped answer = true -> exists blocks, deployment_blocks env answer = Ok blocks.
Proof.
  unfold well_shaped, deployment_blocks.
  destruct answer as [ | | | | | d ]; try discriminate.
  - eexists. reflexivity.
  - destruct d as [ | kv d ]; [ eexists; reflexivity | ].
    cbn [truthy py_in py_subscript]. unfold dict_mem.
    destruct (dict_get "detailedDeploymentsFormatted" (kv :: d)) as [ v | ];
      [ | eexists; reflexivity ].
    cbn [rbind]. destruct (truthy v) eqn:Hv.
    + destruct v as [ | | | | l | ]; try (intros Hf; discriminate Hf).
      intros Hl. cbn [negb py_iter rbind]. now apply rmap_deployment_block.
    + intros _. eexists. reflexivity.
Qed.

Theorem format_envs_total (w : world) (envs : list item) :
  (forall history rq, well_shaped (api_result (http w history rq)) = true) ->
  Forall (fun env => copyable env = true) envs ->
  forall s, exists blocks s', format_envs w envs s = (Ok blocks, s').
Proof.
  intros Hw. unfold format_envs.
  induction 1 as [ | env envs Hc Henvs IH ]; intros s; cbn [mapM].
  - eexists _, _. reflexivity.
  - unfold bind. destruct (format_env_copyable w env s Hc) as [new ->].
    destruct (deployment_blocks_well_shaped env (deployments_answer w env s))
      as [blocks ->]; [ apply Hw | ].
    cbn [rbind]. destruct (IH {| heap := heap s ++ new;
                                 trace := trace s ++ [deployments_request env s] |})
      as (rest & s' & ->).
    eexists _, _. reflexivity.
Qed.

(** ** Buttons *)

Lemma eq_str_spec (v : json) (s : string) : eq_str v s = true <-> v = JStr s.
Proof.
  destruct v; simpl; try (split; [ discriminate | intros [=] ]).
  rewrite String.eqb_eq. split; [ now intros -> | now intros [= ->] ].
Qed.

Lemma get_or_none_str (k s : string) (d : dict json) :
  get_or_none k d = JStr s <-> dict_get k d = Some (JStr s).
Proof.
  unfold get_or_none. destruct (dict_get k d) as [ v | ].
  - split; [ now intros -> | now intros [= ->] ].
  - split; discriminate.
Qed.

Lemma wf_dict_get (k : string) (d : dict json) (v : json) :
  wf_json (JDict d) = true -> dict_get k d = Some v -> wf_json v = true.
Proof.
  simpl. intros H. apply andb_true_iff in H as [_ H].
  induction d as [ | [k' v'] d IHd ]; simpl in *; [ discriminate | ].
  apply andb_true_iff in H as [Hv Hd].
  destruct (k =? k')%string; [ now intros [= <-] | now apply IHd ].
Qed.

Lemma wf_get_or_none (k : string) (d : dict json) :
  wf_json (JDict d) = true -> wf_json (get_or_none k d) = true.
Proof.
  intros H. unfold get_or_none.
  destruct (dict_get k d) eqn:Hk; [ eapply wf_dict_get; eauto | reflexivity ].
Qed.

Lemma wf_py_or (a b : json) :
  wf_json a = true -> wf_json b = true -> wf_json (py_or a b) = true.
Proof. unfold py_or. now destruct (truthy a). Qed.

(** C2. The button of a deployment has the style primary exactly when the
    state entry of the deployment is the str Primary; with any other value,
    or none, it has the style danger. *)
Theorem button_style_primary_iff (env_id region : json) (d : dict json) :
  exists block,
    deployment_block env_id region (JDict d) = Ok block
    /\ (button_field "style" block = Some (JStr "primary")
        <-> dict_get "state" d = Some (JStr "Primary"))
    /\ (dict_get "state" d <> Some (JStr "Primary")
        -> button_field "style" block = Some (JStr "danger")).
Proof.
  eexists. split; [ reflexivity | ].
  simpl. unfold style_of.
  destruct (eq_str (get_or_none "state" d) "Primary") eqn:Hs.
  - apply eq_str_spec, get_or_none_str in Hs. repeat split; congruence.
  - assert (Hne : dict_get "state" d <> Some (JStr "Primary")).
    { intros H. apply get_or_none_str, eq_str_spec in H. congruence. }
    repeat split; congruence.
Qed.

(** C3. Decoding the value of the button of a deployment gives the dict of
    the environment id, the region and the deployment id the button was
    built from, and nothing else. *)
Theorem button_value_round_trip (env : item) (d : dict json) :
  wf_json (JDict (entries env)) = true ->
  wf_json (JDict d) = true ->
  exists block value,
    deployment_block (env_id_of env) (item_get "region" env) (JDict d) = Ok block
    /\ button_field "value" block = Some (JStr value)
    /\ Json.loads value
       = Some (JDict [("id", env_id_of env);
                      ("region", item_get "region" env);
                      ("deployment", get_or_none "id" d)]).
Proof.
  intros Henv Hd. eexists. eexists. split; [ reflexivity | ].
  split; [ reflexivity | ].
  apply JsonFacts.loads_dumps.
  unfold button_payload, env_id_of, item_get.
  change (wf_json (JDict ?l)) with (nodupb (map fst l) && forallb (fun kv => wf_json (snd kv)) l).
  cbn [map fst snd forallb nodupb existsb].
  rewrite wf_py_or, !wf_get_or_none by (auto using wf_get_or_none).
  reflexivity.
Qed.

Lemma button_value_round_trip_sample :
  exists block value,
    deployment_block (JStr "e1") (JStr "us-east1")
      (JDict [("id", JStr "d1"); ("state", JStr "Primary")]) = Ok block
    /\ button_field "value" block = Some (JStr value)
    /\ Json.loads value
       = Some (JDict [("id", JStr "e1"); ("region", JStr "us-east1");
                      ("deployment", JStr "d1")]).
Proof.
  apply (button_value_round_trip
           {| entries := [("id", JStr "e1"); ("region", JStr "us-east1")];
              headers_obj := None |}
           [("id", JStr "d1"); ("state", JStr "Primary")]); reflexivity.
Defined.

(** ** The aggregator *)

Lemma dict_get_set_same {V : Type} (k : string) (v : V) (d : dict V) :
  dict_get k (dict_set k v d) = Some v.
Proof.
  induction d as [ | [k' v'] d IHd ]; simpl.
  - now rewrite String.eqb_refl.
  - destruct (k =? k')%string eqn:Hk; simpl.
    + now rewrite String.eqb_refl.
    + now rewrite Hk.
Qed.

Lemma dict_get_set_other {V : Type} (k k' : string) (v : V) (d : dict V) :
  (k =? k')%string = false -> dict_get k (dict_set k' v d) = dict_get k d.
Proof.
  intros Hk. induction d as [ | [k0 v0] d IHd ]; simpl.
  - now rewrite Hk.
  - destruct (k' =? k0)%string eqn:Hk0; simpl.
    + apply String.eqb_eq in Hk0. subst k0. now rewrite Hk.
    + now rewrite IHd.
Qed.

Lemma tagged_steps (P : request -> Prop) (w : world) (configs : list config)
  (s s' : state) (env : item) :
  steps P s s' -> tagged w configs s env -> tagged w configs s' env.
Proof.
  intros Hsteps (c & secret & a & Hc & Hcred & Hr & Hb & Hh & Ha & Hget).
  exists c, secret, a. repeat split; try assumption.
  - pose proof (steps_heap_length _ _ _ Hsteps). lia.
  - now rewrite (steps_heap_get _ _ _ _ Hsteps Ha).
Qed.

Lemma credential_none (w : world) (c : config) :
  credential w c = None
  <-> environ w (KeyName c) = None \/ environ w (KeyName c) = Some EmptyString.
Proof.
  unfold credential. destruct (environ w (KeyName c)) as [ secret | ].
  - destruct (secret =? "")%string eqn:He.
    + apply String.eqb_eq in He. subst. split; auto.
    + split; [ discriminate | ].
      intros [ H | [= H] ]; [ discriminate | ].
      subst. discriminate.
  - split; auto.
Qed.

Lemma credential_some (w : world) (c : config) (secret : string) :
  credential w c = Some secret
  -> environ w (KeyName c) = Some secret /\ (secret =? "")%string = false.
Proof.
  unfold credential. destruct (environ w (KeyName c)) as [ x | ]; [ | discriminate ].
  destruct (x =? "")%string eqn:He; [ discriminate | ].
  now intros [= <-].
Qed.

(** A region without credential is skipped: no item, no request. *)
Lemma aggregate_region_skip (w : world) (uri : string) (acc : list item)
  (c : config) (s : state) :
  credential w c = None -> aggregate_region w uri acc c s = (Ok acc, s).
Proof.
  intros H. apply credential_none in H. unfold aggregate_region.
  destruct H as [ -> | -> ]; reflexivity.
Qed.

Lemma tag_tags (c : config) (a : addr) (it : json) (env : item) :
  tag c a it = Ok env -> tags_of c a env.
Proof.
  destruct it as [ | | | | | d ]; try discriminate. intros [= <-].
  unfold tags_of. simpl. repeat split.
  - rewrite dict_get_set_other by reflexivity. apply dict_get_set_same.
  - apply dict_get_set_same.
Qed.

Lemma rmap_tag (c : config) (a : addr) (items : list json) (envs : list item) :
  rmap (tag c a) items = Ok envs -> Forall (tags_of c a) envs.
Proof.
  revert envs. induction items as [ | it items IH ]; intros envs; simpl.
  - intros [= <-]. constructor.
  - destruct (tag c a it) as [ env | e ] eqn:Htag; simpl; [ | discriminate ].
    destruct (rmap (tag c a) items) as [ rest | e ]; simpl; [ | discriminate ].
    intros [= <-]. constructor; [ eapply tag_tags; eauto | now apply IH ].
Qed.

(** A region with a credential: one request to its API with the
    credential, one new headers dict, and the items of the answer, tagged,
    after those found before. *)
Lemma aggregate_region_set (w : world) (uri : string) (acc : list item)
  (c : config) (s : state) (secret : string) :
  credential w c = Some secret ->
  exists r,
    aggregate_region w uri acc c s
    = (r, {| heap := heap s ++ [auth_headers secret];
             trace := trace s ++ [Get (BaseUrl c ++ uri) (auth_headers secret)] |})
    /\ forall items, r = Ok items ->
         exists new, items = acc ++ new /\ Forall (tags_of c (length (heap s))) new.
Proof.
  intros Hcred. apply credential_some in Hcred as [Henv Hne].
  unfold aggregate_region. rewrite Henv, Hne.
  unfold bind, alloc, invoke_api_call, bind, deref, send, ret, lift. simpl.
  unfold heap_get. simpl. rewrite nth_fresh. fold (auth_headers secret).
  set (response_obj := api_result _).
  destruct (if truthy response_obj then py_in "items" response_obj else Ok false)
    as [ [ | ] | e ].
  - destruct (rbind (py_subscript response_obj "items") py_iter) as [ items | e ].
    + destruct (rmap (tag c (length (heap s))) items) as [ envs | e ] eqn:Htag.
      * eexists. split; [ reflexivity | ]. intros ? [= <-].
        exists envs. split; [ reflexivity | eapply rmap_tag; eauto ].
      * eexists. split; [ reflexivity | ]. discriminate.
    + eexists. split; [ reflexivity | ]. discriminate.
  - eexists. split; [ reflexivity | ]. intros ? [= <-].
    exists []. now rewrite app_nil_r.
  - eexists. split; [ reflexivity | ]. discriminate.
Qed.

Lemma aggregate_region_spec (w : world) (configs : list config) (uri : string)
  (acc : list item) (c : config) (s : state) :
  In c configs -> Forall (tagged w configs s) acc ->
  steps (region_request w configs) s (snd (aggregate_region w uri acc c s))
  /\ forall items, fst (aggregate_region w uri acc c s) = Ok items ->
       Forall (tagged w configs (snd (aggregate_region w uri acc c s))) items.
Proof.
  intros Hc Hacc. destruct (credential w c) as [ secret | ] eqn:Hcred.
  - destruct (aggregate_region_set w uri acc c s secret Hcred) as (r & Hrun & Hitems).
    rewrite Hrun. simpl.
    assert (Hsteps : steps (region_request w configs) s
                       {| heap := heap s ++ [auth_headers secret];
                          trace := trace s ++ [Get (BaseUrl c ++ uri) (auth_headers secret)] |}).
    { split; simpl; [ eauto | ].
      eexists. split; [ reflexivity | ]. constructor; [ | constructor ].
      exists c, secret, uri, (auth_headers secret). auto. }
    split; [ exact Hsteps | ].
    intros items Hr. destruct (Hitems items Hr) as (new & -> & Hnew).
    apply Forall_app. split.
    + eapply Forall_impl; [ | exact Hacc ]. intros env.
      exact (tagged_steps _ w configs _ _ env Hsteps).
    + eapply Forall_impl; [ | exact Hnew ].
      intros env (Hr' & Hb & Hh). exists c, secret, (length (heap s)).
      repeat split; try assumption.
      * simpl. rewrite length_app. simpl. lia.
      * unfold heap_get. simpl. apply nth_fresh.
  - rewrite aggregate_region_skip by assumption. simpl.
    split; [ apply steps_refl | now intros items [= <-] ].
Qed.

Lemma aggregate_spec (w : world) (configs : list config) (uri : string)
  (rest : list config) :
  incl rest configs ->
  forall (acc : list item) (s : state),
    Forall (tagged w configs s) acc ->
    steps (region_request w configs) s (snd (aggregate w uri rest acc s))
    /\ forall items, fst (aggregate w uri rest acc s) = Ok items ->
         Forall (tagged w configs (snd (aggregate w uri rest acc s))) items.
Proof.
  induction rest as [ | c rest IH ]; intros Hincl acc s Hacc; simpl.
  - split; [ apply steps_refl | now intros items [= <-] ].
  - unfold bind.
    destruct (aggregate_region_spec w configs uri acc c s) as [Hsteps Hitems];
      [ apply Hincl; now left | exact Hacc | ].
    destruct (aggregate_region w uri acc c s) as [[results | e] s1]; simpl in *.
    + destruct (IH (fun x Hx => Hincl x (or_intror Hx)) results s1 (Hitems _ eq_refl))
        as [Hsteps' Hitems'].
      split; [ eapply steps_trans; eauto | exact Hitems' ].
    + split; [ exact Hsteps | discriminate ].
Qed.

(** ** The formatter on tagged items *)

(** The deployments request of a tagged item goes to the API of its region,
    with the credential of the region and the id of the environment. *)
Lemma tagged_request (w : world) (configs : list config) (s : state) (env : item) :
  tagged w configs s env ->
  exists c secret,
    In c configs /\ credential w c = Some secret
    /\ item_get "region" env = JStr (Region c)
    /\ deployments_request env s
       = Get (BaseUrl c ++ DEPLOYMENTS_URI)
             (auth_headers secret ++ [("zn-env-id", env_id_of env)]).
Proof.
  intros (c & secret & a & Hc & Hcred & Hr & Hb & Hh & Ha & Hget).
  exists c, secret. repeat split; try assumption.
  - unfold item_get, get_or_none. now rewrite Hr.
  - unfold deployments_request, headers_of, item_get, get_or_none.
    rewrite Hb, Hh, Hget. reflexivity.
Qed.

Lemma tagged_copyable (w : world) (configs : list config) (s : state) (env : item) :
  tagged w configs s env -> copyable env = true.
Proof.
  intros (c & secret & a & _ & _ & _ & _ & Hh & _). unfold copyable. now rewrite Hh.
Qed.


Lemma region_request_of_tagged (w : world) (configs : list config) (s : state)
  (env : item) :
  tagged w configs s env -> region_request w configs (deployments_request env s).
Proof.
  intros Ht. destruct (tagged_request _ _ _ _ Ht) as (c & secret & Hc & Hcred & _ & Hrq).
  exists c, secret, DEPLOYMENTS_URI, (auth_headers secret ++ [("zn-env-id", env_id_of env)]).
  repeat split; assumption.
Qed.

Lemma format_env_tagged (w : world) (configs : list config) (env : item) (s : state) :
  tagged w configs s env ->
  steps (region_request w configs) s (snd (format_env w env s)).
Proof.
  intros Ht.
  destruct (format_env_copyable w env s (tagged_copyable _ _ _ _ Ht)) as [new Hrun].
  rewrite Hrun. split; simpl; [ eauto | ].
  eexists. split; [ reflexivity | ].
  constructor; [ now apply region_request_of_tagged | constructor ].
Qed.

Lemma format_slack_message_tagged (w : world) (configs : list config)
  (envs : list item) (s : state) :
  Forall (tagged w configs s) envs ->
  steps (region_request w configs) s (snd (format_slack_message w envs s)).
Proof.
  intros Henvs. unfold format_slack_message, format_envs, bind.
  assert (H : steps (region_request w configs) s (snd (mapM (format_env w) envs s))).
  { apply (mapM_steps _ (fun s' => Forall (tagged w configs s') envs)); [ | exact Henvs ].
    intros env s' Hin Hs'.
    assert (Ht : tagged w configs s' env) by (rewrite Forall_forall in Hs'; auto).
    pose proof (format_env_tagged w configs env s' Ht) as Hstep.
    split; [ exact Hstep | ].
    eapply Forall_impl; [ | exact Hs' ].
    intros x. exact (tagged_steps _ w configs _ _ x Hstep). }
  destruct (mapM (format_env w) envs s) as [[blocks | e] s1]; exact H.
Qed.




(** ** The handler *)

Lemma region_request_is_get (w : world) (configs : list config) (rq : request) :
  region_request w configs rq -> is_get rq = true.
Proof. now intros (c & secret & endpoint & hs & _ & _ & -> & _). Qed.

(** Every GET of a run of the handler goes to a region whose credential is
    set. *)
Lemma slack_trigger_requests (w : world) (body : dict (list string)) :
  steps (fun rq => is_get rq = true -> region_request w API_CONFIGS rq)
        init (snd (slack_trigger w body)).
Proof.
  set (Q := fun rq => is_get rq = true -> region_request w API_CONFIGS rq).
  assert (Hweak : forall s s', steps (region_request w API_CONFIGS) s s' -> steps Q s s')
    by (intros s s'; apply steps_weaken; unfold Q; auto).
  unfold slack_trigger, slack_trigger_try, bind, lift, ret.
  destruct (text_of body) as [ [ text | ] | e ]; try apply steps_refl.
  destruct (text =? "")%string; [ apply steps_refl | ].
  destruct (aggregate_spec w API_CONFIGS (env_uri_of text) API_CONFIGS (incl_refl _)
              [] init (Forall_nil _)) as [Hagg Htagged].
  destruct (aggregate w (env_uri_of text) API_CONFIGS [] init) as [[items | e] s1];
    cbn [fst snd] in *; [ | now apply Hweak ].
  specialize (Htagged items eq_refl).
  destruct items as [ | env envs ]; [ now apply Hweak | ].
  pose proof (format_slack_message_tagged w API_CONFIGS (env :: envs) s1 Htagged) as Hfmt.
  destruct (format_slack_message w (env :: envs) s1) as [[message | e] s2];
    cbn [fst snd] in *; [ | apply Hweak; eapply steps_trans; eauto ].
  assert (H2 : steps Q init s2) by (apply Hweak; eapply steps_trans; eauto).
  destruct (environ w "SLACK_WEBHOOK_URL") as [ url | ]; [ | exact H2 ].
  destruct (url =? "")%string; [ exact H2 | ].
  assert (H3 : steps Q s2
                 {| heap := heap s2;
                    trace := trace s2
                             ++ [Post url [("Content-Type", JStr "application/json")]
                                   message] |}).
  { split; cbn [heap trace]; [ exists []; now rewrite app_nil_r | ].
    eexists. split; [ reflexivity | ].
    constructor; [ discriminate | constructor ]. }
  unfold post_message, bind, send, lift, ret.
  destruct (http w (trace s2) _) as [ | status reply_body ];
    [ eapply steps_trans; eauto | ].
  destruct (is_error status); eapply steps_trans; eauto.
Qed.

(** The base URL of a region of [API_CONFIGS] is no prefix of a URL of the
    other region. *)
Lemma base_urls_apart (w : world) (c c' : config) (secret endpoint : string) :
  In c API_CONFIGS -> In c' API_CONFIGS ->
  credential w c = None -> credential w c' = Some secret ->
  String.prefix (BaseUrl c) (BaseUrl c' ++ endpoint) = false.
Proof.
  simpl. intros [ <- | [ <- | [] ] ] [ <- | [ <- | [] ] ] Hc Hc';
    try congruence; reflexivity.
Qed.

(** C5. A region whose credential variable is unset or empty contributes
    nothing: its turn in the loop leaves the results, the heap and the
    trace as they were, and no GET of the run of the handler goes to its
    base URL, whatever the network would answer. *)
Theorem region_without_credential_is_skipped (w : world)
  (body : dict (list string)) (c : config) :
  In c API_CONFIGS ->
  environ w (KeyName c) = None \/ environ w (KeyName c) = Some EmptyString ->
  (forall (uri : string) (acc : list item) (s : state),
      aggregate_region w uri acc c s = (Ok acc, s))
  /\ (forall (url : string) (hs : dict json),
        In (Get url hs) (trace (snd (slack_trigger w body))) ->
        String.prefix (BaseUrl c) url = false).
Proof.
  intros Hc Hunset. apply credential_none in Hunset. split.
  - intros uri acc s. now apply aggregate_region_skip.
  - intros url hs Hin.
    destruct (slack_trigger_requests w body) as [_ (sent & Htrace & Hsent)].
    rewrite Htrace in Hin. simpl in Hin.
    rewrite Forall_forall in Hsent.
    destruct (Hsent _ Hin eq_refl) as (c' & secret & endpoint & hs' & Hc' & Hcred & Heq & _).
    injection Heq as -> _.
    eapply base_urls_apart; eauto.
Qed.

Lemma region_without_credential_sample :
  (forall (uri : string) (acc : list item) (s : state),
      aggregate_region (Sample.w true) uri acc
        {| BaseUrl := "https://partners-eu-west12.zeronetworks.com/api/v1/internal";
           KeyName := "eu_west12_key"; Region := "eu-west12" |} s = (Ok acc, s))
  /\ (forall (url : string) (hs : dict json),
        In (Get url hs) (trace (snd (slack_trigger (Sample.w true) Sample.prod))) ->
        String.prefix "https://partners-eu-west12.zeronetworks.com/api/v1/internal" url
        = false).
Proof.
  apply (region_without_credential_is_skipped (Sample.w true) Sample.prod
           {| BaseUrl := "https://partners-eu-west12.zeronetworks.com/api/v1/internal";
              KeyName := "eu_west12_key"; Region := "eu-west12" |}).
  - simpl. right. left. reflexivity.
  - left. reflexivity.
Defined.

Lemma trace_all_get (P : request -> Prop) (s : state) :
  (forall rq, P rq -> is_get rq = true) -> steps P init s ->
  forallb is_get (trace s) = true.
Proof.
  intros HP [_ (sent & Htrace & Hsent)]. rewrite Htrace. simpl.
  apply forallb_forall. rewrite Forall_forall in Hsent. auto.
Qed.



(** C7. Without a text field, or with an empty one, the handler answers 200
    with the ephemeral usage message and sends no request at all. *)
Theorem missing_text_usage (w : world) (body : dict (list string)) :
  dict_get "text" body = None
  \/ (exists rest, dict_get "text" body = Some (EmptyString :: rest)) ->
  slack_trigger w body = ((ephemeral usage_text, 200%Z), init)
  /\ trace (snd (slack_trigger w body)) = [].
Proof.
  intros [ H | [rest H] ];
    unfold slack_trigger, slack_trigger_try, bind, lift, text_of; rewrite H;
    split; reflexivity.
Qed.

Lemma missing_text_usage_sample :
  slack_trigger (Sample.w true) [("user_name", ["ann"])]
  = ((ephemeral usage_text, 200%Z), init)
  /\ trace (snd (slack_trigger (Sample.w true) [("user_name", ["ann"])])) = [].
Proof.
  apply (missing_text_usage (Sample.w true) [("user_name", ["ann"])]).
  left. reflexivity.
Defined.

(** C6 as the specification states it fails: with ids where deployment
    objects are expected, formatting raises before the webhook is looked
    up, and the response is the generic one. *)
Lemma webhook_unset_as_stated_fails :
  ~ (forall (w : world) (body : dict (list string)) (text : string)
            (items : list item) (s : state),
        environ w "SLACK_WEBHOOK_URL" = None
        \/ environ w "SLACK_WEBHOOK_URL" = Some EmptyString ->
        text_of body = Ok (Some text) -> text <> EmptyString ->
        aggregate w (env_uri_of text) API_CONFIGS [] init = (Ok items, s) ->
        items <> [] ->
        fst (slack_trigger w body) = (ephemeral misconfigured_text, 500%Z)
        /\ forallb is_get (trace (snd (slack_trigger w body))) = true).
Proof.
  intros H.
  destruct (H Sample.w_ids Sample.prod "prod" _ _
              (or_introl eq_refl) eq_refl ltac:(discriminate) eq_refl
              ltac:(discriminate)) as [Hresponse _].
  vm_compute in Hresponse. discriminate.
Qed.

(** C6, amended. With the webhook URL unset or empty and at least one
    result, the handler answers 500 and sends no POST; the body is the
    misconfiguration message when the formatter returns a message, and the
    generic error message when the formatter raises. *)
Theorem webhook_unset_response (w : world) (body : dict (list string))
  (text : string) (items : list item) (s1 : state) :
  environ w "SLACK_WEBHOOK_URL" = None
  \/ environ w "SLACK_WEBHOOK_URL" = Some EmptyString ->
  text_of body = Ok (Some text) -> text <> EmptyString ->
  aggregate w (env_uri_of text) API_CONFIGS [] init = (Ok items, s1) ->
  items <> [] ->
  snd (fst (slack_trigger w body)) = 500%Z
  /\ forallb is_get (trace (snd (slack_trigger w body))) = true
  /\ (forall message s2,
        format_slack_message w items s1 = (Ok message, s2) ->
        slack_trigger w body = ((ephemeral misconfigured_text, 500%Z), s2))
  /\ (forall e s2,
        format_slack_message w items s1 = (Raise e, s2) ->
        slack_trigger w body = ((ephemeral critical_text, 500%Z), s2)).
Proof.
  intros Hunset Htext Hne Hagg Hitems.
  destruct (aggregate_spec w API_CONFIGS (env_uri_of text) API_CONFIGS (incl_refl _)
              [] init (Forall_nil _)) as [Hsteps _].
  rewrite Hagg in Hsteps. cbn [snd] in Hsteps.
  pose proof (format_slack_message_steps w items s1) as Hfmt.
  assert (Hrun : slack_trigger w body
                 = match format_slack_message w items s1 with
                   | (Ok _, s2) => ((ephemeral misconfigured_text, 500%Z), s2)
                   | (Raise _, s2) => ((ephemeral critical_text, 500%Z), s2)
                   end).
  { unfold slack_trigger, slack_trigger_try, bind, lift, ret. rewrite Htext.
    apply String.eqb_neq in Hne. rewrite Hne, Hagg.
    destruct items as [ | env envs ]; [ congruence | ].
    destruct (format_slack_message w (env :: envs) s1) as [[message | e] s2];
      [ | reflexivity ].
    destruct Hunset as [ -> | -> ]; reflexivity. }
  rewrite Hrun.
  destruct (format_slack_message w items s1) as [[message | e] s2]; cbn [fst snd] in *;
    (split; [ reflexivity | ]);
    (split; [ eapply trace_all_get;
              [ | eapply steps_trans;
                  [ eapply steps_weaken; [ apply region_request_is_get | exact Hsteps ]
                  | exact Hfmt ] ]; auto | ]);
    split; intros ? ? [= ]; subst; reflexivity.
Qed.

Lemma webhook_unset_response_sample :
  snd (fst (slack_trigger (Sample.w false) Sample.prod)) = 500%Z
  /\ fst (fst (slack_trigger (Sample.w false) Sample.prod))
     = ephemeral misconfigured_text.
Proof.
  destruct (webhook_unset_response (Sample.w false) Sample.prod "prod" _ _
              (or_introl eq_refl) eq_refl ltac:(discriminate) eq_refl
              ltac:(discriminate)) as (Hstatus & _ & Hok & _).
  split; [ exact Hstatus | ].
  now rewrite (Hok _ _ eq_refl).
Defined.

(** ** The blocks of an environment *)

(** C1. The search for prod gives one environment, and the answer to its
    deployments request lists two deployments, the first in state Primary
    and the second in state Secondary: the message has four blocks, the
    header, the section of the environment and two action blocks, the
    button of the first with the style primary and the button of the second
    with the style danger. *)
Theorem one_environment_two_deployments (w : world) (env : item) (s1 : state)
  (answer d1 d2 : dict json) :
  aggregate w (env_uri_of "prod") API_CONFIGS [] init = (Ok [env], s1) ->
  deployments_answer w env s1 = JDict answer ->
  dict_get "detailedDeploymentsFormatted" answer = Some (JList [JDict d1; JDict d2]) ->
  dict_get "state" d1 = Some (JStr "Primary") ->
  dict_get "state" d2 = Some (JStr "Secondary") ->
  exists message s2 b1 b2,
    format_slack_message w [env] s1 = (Ok message, s2)
    /\ py_subscript message "blocks"
       = Ok (JList [header_block; env_section env; b1; b2])
    /\ block_type header_block = Some (JStr "header")
    /\ block_type (env_section env) = Some (JStr "section")
    /\ block_type b1 = Some (JStr "actions")
    /\ block_type b2 = Some (JStr "actions")
    /\ button_field "style" b1 = Some (JStr "primary")
    /\ button_field "style" b2 = Some (JStr "danger").
Proof.
  intros Hagg Hanswer Hkey Hd1 Hd2.
  destruct (aggregate_spec w API_CONFIGS (env_uri_of "prod") API_CONFIGS (incl_refl _)
              [] init (Forall_nil _)) as [_ Htagged].
  rewrite Hagg in Htagged. specialize (Htagged _ eq_refl).
  apply Forall_inv in Htagged.
  destruct (format_env_copyable w env s1 (tagged_copyable _ _ _ _ Htagged)) as [new Hrun].
  unfold format_slack_message, format_envs, mapM, bind, ret. rewrite Hrun, Hanswer.
  unfold deployment_blocks.
  assert (Hin : dict_mem "detailedDeploymentsFormatted" answer = true)
    by (unfold dict_mem; now rewrite Hkey).
  destruct answer as [ | kv answer ]; [ discriminate | ].
  cbn [truthy py_in rbind py_subscript]. rewrite Hin, Hkey.
  cbn [truthy negb rbind py_iter rmap deployment_block py_get].
  do 4 eexists. split; [ reflexivity | ].
  split; [ reflexivity | ].
  repeat (split; [ reflexivity | ]).
  cbn. unfold style_of, get_or_none. rewrite Hd1, Hd2. split; reflexivity.
Qed.

Lemma one_environment_two_deployments_sample :
  exists message s2 b1 b2,
    format_slack_message (Sample.w true) [Sample.env1] Sample.s1 = (Ok message, s2)
    /\ py_subscript message "blocks"
       = Ok (JList [header_block; env_section Sample.env1; b1; b2])
    /\ block_type header_block = Some (JStr "header")
    /\ block_type (env_section Sample.env1) = Some (JStr "section")
    /\ block_type b1 = Some (JStr "actions")
    /\ block_type b2 = Some (JStr "actions")
    /\ button_field "style" b1 = Some (JStr "primary")
    /\ button_field "style" b2 = Some (JStr "danger").
Proof.
  apply (one_environment_two_deployments (Sample.w true) Sample.env1 Sample.s1
           [("detailedDeploymentsFormatted",
             JList [JDict [("id", JStr "d1"); ("name", JStr "blue");
                           ("state", JStr "Primary")];
                    JDict [("id", JStr "d2"); ("name", JStr "green");
                           ("state", JStr "Secondary")]])]
           [("id", JStr "d1"); ("name", JStr "blue"); ("state", JStr "Primary")]
           [("id", JStr "d2"); ("name", JStr "green"); ("state", JStr "Secondary")]);
    reflexivity.
Defined.



(** C10. The formatter sets the id header on a copy of the headers dict of
    an item: the request of the item carries the header, and the dict the
    item holds in its headers entry is after formatting what it was before,
    with no id header added to it. *)
Theorem format_keeps_stored_headers (w : world) (envs : list item) (s : state)
  (env : item) (a : addr) :
  In env envs -> headers_obj env = Some a -> a < length (heap s) ->
  heap_get a (snd (format_slack_message w envs s)) = heap_get a s
  /\ dict_mem "zn-env-id" (heap_get a (snd (format_slack_message w envs s)))
     = dict_mem "zn-env-id" (heap_get a s)
  /\ forall s0, a < length (heap s0) ->
       exists url hs,
         trace (snd (format_env w env s0)) = trace s0 ++ [Get url hs]
         /\ dict_get "zn-env-id" hs = Some (env_id_of env)
         /\ heap_get a (snd (format_env w env s0)) = heap_get a s0.
Proof.
  intros _ Hh Ha.
  pose proof (format_slack_message_steps w envs s) as Hsteps.
  rewrite (steps_heap_get _ _ _ _ Hsteps Ha).
  split; [ reflexivity | ]. split; [ reflexivity | ].
  intros s0 Ha0.
  assert (Hc : copyable env = true) by (unfold copyable; now rewrite Hh).
  destruct (format_env_copyable w env s0 Hc) as [new Hrun]. rewrite Hrun.
  eexists _, _. split; [ reflexivity | ]. split.
  - apply dict_get_set_same.
  - unfold heap_get. cbn [snd heap]. now apply app_nth1.
Qed.

Lemma format_keeps_stored_headers_sample :
  heap_get 0 (snd (format_slack_message (Sample.w true) [Sample.env1] Sample.s1))
  = heap_get 0 Sample.s1
  /\ dict_mem "zn-env-id"
       (heap_get 0 (snd (format_slack_message (Sample.w true) [Sample.env1] Sample.s1)))
     = false.
Proof.
  destruct (format_keeps_stored_headers (Sample.w true) [Sample.env1] Sample.s1
              Sample.env1 0 (or_introl eq_refl) eq_refl (Nat.lt_0_succ 0))
    as (Hsame & Hmem & _).
  split; [ exact Hsame | ]. rewrite Hmem. reflexivity.
Defined.

(** * Further properties *)

(** ** The API client *)


(** ** The aggregator, region by region *)

(** The turn of a region with a credential: one new headers dict, one
    search request, and the items of the answer tagged with the region
    after the results found before. *)
Lemma aggregate_region_run (w : world) (uri : string) (acc : list item)
  (c : config) (s : state) (secret : string) :
  credential w c = Some secret ->
  aggregate_region w uri acc c s
  = (rbind (items_of_answer (search_answer w c uri secret s)) (fun items =>
     rbind (rmap (tag c (length (heap s))) items) (fun tagged =>
     Ok (acc ++ tagged))),
     {| heap := heap s ++ [auth_headers secret];
        trace := trace s ++ [search_request c uri secret] |}).
Proof.
  intros Hcred. apply credential_some in Hcred as [Henv Hne].
  unfold aggregate_region. rewrite Henv, Hne.
  unfold bind, alloc, invoke_api_call, bind, deref, send, ret, lift. simpl.
  unfold heap_get. simpl. rewrite nth_fresh.
  unfold items_of_answer, search_answer, search_request, auth_headers.
  set (response_obj := api_result _).
  destruct (if truthy response_obj then py_in "items" response_obj else Ok false)
    as [ [ | ] | e ]; cbn [rbind].
  - destruct (rbind (py_subscript response_obj "items") py_iter) as [ items | e ];
      cbn [rbind]; [ | reflexivity ].
    destruct (rmap (tag c (length (heap s))) items); reflexivity.
  - cbn [rmap rbind]. now rewrite app_nil_r.
  - reflexivity.
Qed.

(** X2. When the aggregation returns, it has sent exactly one search
    request for each region that has a credential, in the order of the
    configuration, each with the credential of its region, and it has
    created one headers dict for each of them. *)
Theorem aggregate_sends_one_search_per_region (w : world) (uri : string)
  (configs : list config) (acc items : list item) (s s' : state) :
  aggregate w uri configs acc s = (Ok items, s') ->
  trace s' = trace s ++ search_requests w uri configs
  /\ length (heap s') = length (heap s) + length (search_requests w uri configs).
Proof.
  revert acc s. induction configs as [ | c configs IH ]; intros acc s; simpl.
  - intros [= _ <-]. rewrite !app_nil_r. split; [ reflexivity | lia ].
  - unfold bind, search_requests. cbn [flat_map].
    fold (search_requests w uri configs).
    destruct (credential w c) as [ secret | ] eqn:Hcred.
    + rewrite (aggregate_region_run w uri acc c s secret Hcred).
      destruct (rbind _ _) as [ results | e ]; [ | discriminate ].
      intros Hrest. apply IH in Hrest as [Htrace Hheap]. cbn [trace heap] in *.
      rewrite Htrace, Hheap, <- app_assoc, !length_app. simpl. split; [ reflexivity | lia ].
    + rewrite (aggregate_region_skip w uri acc c s Hcred).
      intros Hrest. apply IH in Hrest as [Htrace Hheap]. now split.
Qed.

Lemma aggregate_sends_one_search_sample :
  trace Sample.s1
  = trace init ++ search_requests (Sample.w true) (env_uri_of "prod") API_CONFIGS
  /\ length (heap Sample.s1)
     = length (heap init)
       + length (search_requests (Sample.w true) (env_uri_of "prod") API_CONFIGS).
Proof.
  apply (aggregate_sends_one_search_per_region (Sample.w true) (env_uri_of "prod")
           API_CONFIGS [] [Sample.env1] init Sample.s1).
  reflexivity.
Defined.

(** X3. A region whose search fails, or whose answer is an empty or
    item-less dict, adds nothing to the results and does not stop the
    loop: its turn returns the results found before. *)
Theorem region_without_items_adds_nothing (w : world) (uri : string)
  (acc : list item) (c : config) (s : state) (secret : string) :
  credential w c = Some secret ->
  search_answer w c uri secret s = JNull
  \/ (exists d, search_answer w c uri secret s = JDict d
                /\ dict_get "items" d = None) ->
  aggregate_region w uri acc c s
  = (Ok acc, {| heap := heap s ++ [auth_headers secret];
                trace := trace s ++ [search_request c uri secret] |}).
Proof.
  intros Hcred Hanswer. rewrite (aggregate_region_run w uri acc c s secret Hcred).
  assert (Hitems : items_of_answer (search_answer w c uri secret s) = Ok []).
  { destruct Hanswer as [ -> | (d & -> & Hd) ]; [ reflexivity | ].
    unfold items_of_answer, py_in, dict_mem. rewrite Hd.
    now destruct (truthy (JDict d)). }
  rewrite Hitems. cbn [rbind rmap]. now rewrite app_nil_r.
Qed.

Lemma region_without_items_sample :
  aggregate_region Sample.w_dead (env_uri_of "prod") [] (hd Sample.no_config API_CONFIGS) init
  = (Ok [], {| heap := [auth_headers "secret"];
               trace := [search_request (hd Sample.no_config API_CONFIGS)
                           (env_uri_of "prod") "secret"] |}).
Proof.
  apply (region_without_items_adds_nothing Sample.w_dead (env_uri_of "prod") []
           (hd Sample.no_config API_CONFIGS) init "secret");
    [ reflexivity | left; reflexivity ].
Defined.

(** X4. A region whose answer lists item objects contributes all of them,
    in the order of the answer and after the results of the regions before
    it; each carries the tags of the region and they all refer to one and
    the same headers dict, the one just created for the region. *)
Theorem region_items_in_order (w : world) (uri : string) (acc : list item)
  (c : config) (s : state) (secret : string) (d : dict json)
  (ds : list (dict json)) :
  credential w c = Some secret ->
  search_answer w c uri secret s = JDict d ->
  dict_get "items" d = Some (JList (map JDict ds)) ->
  aggregate_region w uri acc c s
  = (Ok (acc ++ map (fun e => {| entries := tag_entries c e;
                                 headers_obj := Some (length (heap s)) |}) ds),
     {| heap := heap s ++ [auth_headers secret];
        trace := trace s ++ [search_request c uri secret] |}).
Proof.
  intros Hcred Hanswer Hitems.
  rewrite (aggregate_region_run w uri acc c s secret Hcred), Hanswer.
  assert (Hlist : items_of_answer (JDict d) = Ok (map JDict ds)).
  { unfold items_of_answer, py_in, py_subscript, dict_mem. rewrite Hitems.
    destruct d as [ | kv d ]; [ discriminate | reflexivity ]. }
  rewrite Hlist. cbn [rbind].
  assert (Htag : rmap (tag c (length (heap s))) (map JDict ds)
                 = Ok (map (fun e => {| entries := tag_entries c e;
                                        headers_obj := Some (length (heap s)) |}) ds)).
  { clear. induction ds as [ | e ds IH ]; [ reflexivity | ].
    cbn [map rmap tag rbind]. rewrite IH. reflexivity. }
  rewrite Htag. reflexivity.
Qed.

Lemma region_items_in_order_sample :
  aggregate_region (Sample.w true) (env_uri_of "prod") []
    (hd Sample.no_config API_CONFIGS) init
  = (Ok [Sample.env1],
     {| heap := [auth_headers "secret"];
        trace := [search_request (hd Sample.no_config API_CONFIGS)
                    (env_uri_of "prod") "secret"] |}).
Proof.
  apply (region_items_in_order (Sample.w true) (env_uri_of "prod") []
           (hd Sample.no_config API_CONFIGS) init "secret"
           [("items", JList [JDict [("id", JStr "e1"); ("name", JStr "prod-1")]])]
           [[("id", JStr "e1"); ("name", JStr "prod-1")]]);
    reflexivity.
Defined.





(** X6. An answer whose items hold anything but objects makes the turn of
    the region raise a TypeError, at the assignment of the first tag. *)
Theorem region_with_bad_item_raises (w : world) (uri : string) (acc : list item)
  (c : config) (s : state) (secret : string) (d : dict json) (l : list json) :
  credential w c = Some secret ->
  search_answer w c uri secret s = JDict d ->
  dict_get "items" d = Some (JList l) ->
  forallb is_dict l = false ->
  fst (aggregate_region w uri acc c s) = Raise TypeError.
Proof.
  intros Hcred Hanswer Hitems Hbad.
  rewrite (aggregate_region_run w uri acc c s secret Hcred), Hanswer.
  assert (Hlist : items_of_answer (JDict d) = Ok l).
  { unfold items_of_answer, py_in, py_subscript, dict_mem. rewrite Hitems.
    destruct d as [ | kv d ]; [ discriminate | reflexivity ]. }
  rewrite Hlist. cbn [fst rbind].
  assert (Htag : rmap (tag c (length (heap s))) l = Raise TypeError).
  { clear - Hbad. induction l as [ | it l IH ]; [ discriminate | ].
    cbn [forallb] in Hbad. cbn [rmap].
    destruct it as [ | | | | | e ]; try reflexivity.
    cbn [is_dict andb] in Hbad. cbn [tag rbind]. now rewrite (IH Hbad). }
  now rewrite Htag.
Qed.

Lemma region_with_bad_item_sample :
  fst (aggregate_region Sample.w_names (env_uri_of "prod") []
         (hd Sample.no_config API_CONFIGS) init)
  = Raise TypeError.
Proof.
  apply (region_with_bad_item_raises Sample.w_names (env_uri_of "prod") []
           (hd Sample.no_config API_CONFIGS) init "secret"
           [("items", JList [JStr "prod-1"])] [JStr "prod-1"]);
    reflexivity.
Defined.

(** ** The handler, path by path *)

(** X7. When the aggregation raises, the handler answers 500 with the
    generic error message; nothing is formatted and no POST is sent. *)
Theorem aggregation_error_response (w : world) (body : dict (list string))
  (text : string) (e : exn) (s : state) :
  text_of body = Ok (Some text) -> text <> EmptyString ->
  aggregate w (env_uri_of text) API_CONFIGS [] init = (Raise e, s) ->
  slack_trigger w body = ((ephemeral critical_text, 500%Z), s)
  /\ forallb is_get (trace s) = true.
Proof.
  intros Htext Hne Hagg. split.
  - unfold slack_trigger, slack_trigger_try, bind, lift. rewrite Htext.
    apply String.eqb_neq in Hne. rewrite Hne, Hagg. reflexivity.
  - destruct (aggregate_spec w API_CONFIGS (env_uri_of text) API_CONFIGS (incl_refl _)
                [] init (Forall_nil _)) as [Hsteps _].
    rewrite Hagg in Hsteps. cbn [snd] in Hsteps.
    eapply trace_all_get; [ | exact Hsteps ]. apply region_request_is_get.
Qed.

Lemma aggregation_error_sample :
  slack_trigger Sample.w_names Sample.prod
  = ((ephemeral critical_text, 500%Z),
     snd (aggregate Sample.w_names (env_uri_of "prod") API_CONFIGS [] init))
  /\ forallb is_get
       (trace (snd (aggregate Sample.w_names (env_uri_of "prod") API_CONFIGS [] init)))
     = true.
Proof.
  apply (aggregation_error_response Sample.w_names Sample.prod "prod" TypeError);
    [ reflexivity | discriminate | reflexivity ].
Defined.

(** The POST of a message to a webhook URL. *)
Definition webhook_post (url : string) (message : json) : request :=
  Post url [("Content-Type", JStr "application/json")] message.

(** The handler once the aggregation has found something. *)
Lemma slack_trigger_with_results (w : world) (body : dict (list string))
  (text : string) (items : list item) (s1 : state) :
  text_of body = Ok (Some text) -> text <> EmptyString ->
  aggregate w (env_uri_of text) API_CONFIGS [] init = (Ok items, s1) ->
  items <> [] ->
  slack_trigger w body
  = match format_slack_message w items s1 with
    | (Raise _, s2) => ((ephemeral critical_text, 500%Z), s2)
    | (Ok message, s2) =>
        match environ w "SLACK_WEBHOOK_URL" with
        | None => ((ephemeral misconfigured_text, 500%Z), s2)
        | Some url =>
            if (url =? "")%string then ((ephemeral misconfigured_text, 500%Z), s2)
            else
              let s3 := {| heap := heap s2;
                           trace := trace s2 ++ [webhook_post url message] |} in
              match http w (trace s2) (webhook_post url message) with
              | NoReply => ((ephemeral critical_text, 500%Z), s3)
              | Reply status _ =>
                  if is_error status then ((ephemeral critical_text, 500%Z), s3)
                  else ((ephemeral (found_text (length items)), 200%Z), s3)
              end
        end
    end.
Proof.
  intros Htext Hne Hagg Hitems.
  unfold slack_trigger, slack_trigger_try, bind, lift, ret. rewrite Htext.
  apply String.eqb_neq in Hne. rewrite Hne, Hagg.
  destruct items as [ | env envs ]; [ congruence | ].
  destruct (format_slack_message w (env :: envs) s1) as [[message | e] s2];
    [ | reflexivity ].
  destruct (environ w "SLACK_WEBHOOK_URL") as [ url | ]; [ | reflexivity ].
  destruct (url =? "")%string; [ reflexivity | ].
  unfold post_message, bind, send, lift, ret, webhook_post. cbn [heap trace].
  destruct (http w (trace s2) _) as [ | status reply_body ]; [ reflexivity | ].
  destruct (is_error status); reflexivity.
Qed.

(** X8. With results, a message from the formatter, a webhook URL and a
    POST answered with a status below 400, the handler answers 200 with
    the number of environments found; the message went to the webhook URL
    in one POST, the last request of the run. *)
Theorem found_response (w : world) (body : dict (list string)) (text : string)
  (items : list item) (s1 s2 : state) (message : json) (url : string)
  (status : Z) (reply_body : option json) :
  text_of body = Ok (Some text) -> text <> EmptyString ->
  aggregate w (env_uri_of text) API_CONFIGS [] init = (Ok items, s1) ->
  items <> [] ->
  format_slack_message w items s1 = (Ok message, s2) ->
  environ w "SLACK_WEBHOOK_URL" = Some url -> url <> EmptyString ->
  http w (trace s2) (webhook_post url message) = Reply status reply_body ->
  (status < 400)%Z ->
  slack_trigger w body
  = ((ephemeral (found_text (length items)), 200%Z),
     {| heap := heap s2; trace := trace s2 ++ [webhook_post url message] |})
  /\ forallb is_get (trace s2) = true.
Proof.
  intros Htext Hne Hagg Hitems Hfmt Hurl Hurlne Hreply Hstatus. split.
  - rewrite (slack_trigger_with_results w body text items s1) by assumption.
    rewrite Hfmt, Hurl. apply String.eqb_neq in Hurlne. rewrite Hurlne.
    cbv zeta. rewrite Hreply. unfold is_error.
    replace (400 <=? status)%Z with false by (symmetry; apply Z.leb_gt; lia).
    reflexivity.
  - destruct (aggregate_spec w API_CONFIGS (env_uri_of text) API_CONFIGS (incl_refl _)
                [] init (Forall_nil _)) as [Hsteps _].
    rewrite Hagg in Hsteps. cbn [snd] in Hsteps.
    pose proof (format_slack_message_steps w items s1) as Hsteps2.
    rewrite Hfmt in Hsteps2. cbn [snd] in Hsteps2.
    eapply trace_all_get; [ | eapply steps_trans;
      [ eapply steps_weaken; [ apply region_request_is_get | exact Hsteps ]
      | exact Hsteps2 ] ]. auto.
Qed.

Lemma found_response_sample :
  fst (slack_trigger (Sample.w true) Sample.prod) = (ephemeral (found_text 1), 200%Z).
Proof.
  pose (run := format_slack_message (Sample.w true) [Sample.env1] Sample.s1).
  pose (message := match fst run with Ok m => m | Raise _ => JNull end).
  assert (Hrun : slack_trigger (Sample.w true) Sample.prod
                 = ((ephemeral (found_text (length [Sample.env1])), 200%Z),
                    {| heap := heap (snd run);
                       trace := trace (snd run)
                                ++ [webhook_post "https://hooks.example/T1" message] |})
                   /\ forallb is_get (trace (snd run)) = true).
  { apply (found_response (Sample.w true) Sample.prod "prod" [Sample.env1]
             Sample.s1 (snd run) message "https://hooks.example/T1" 200 None);
      try discriminate; vm_compute; reflexivity. }
  destruct Hrun as [Hrun _]. rewrite Hrun. reflexivity.
Defined.

(** X9. When the POST to the webhook gets no response, or a 4xx or 5xx
    status, the handler answers 500 with the generic error message; the
    POST is in the trace, and it is not repeated. *)
Theorem post_failure_response (w : world) (body : dict (list string))
  (text : string) (items : list item) (s1 s2 : state) (message : json)
  (url : string) :
  text_of body = Ok (Some text) -> text <> EmptyString ->
  aggregate w (env_uri_of text) API_CONFIGS [] init = (Ok items, s1) ->
  items <> [] ->
  format_slack_message w items s1 = (Ok message, s2) ->
  environ w "SLACK_WEBHOOK_URL" = Some url -> url <> EmptyString ->
  http w (trace s2) (webhook_post url message) = NoReply
  \/ (exists status reply_body,
        http w (trace s2) (webhook_post url message) = Reply status reply_body
        /\ (400 <= status < 600)%Z) ->
  slack_trigger w body
  = ((ephemeral critical_text, 500%Z),
     {| heap := heap s2; trace := trace s2 ++ [webhook_post url message] |}).
Proof.
  intros Htext Hne Hagg Hitems Hfmt Hurl Hurlne Hreply.
  rewrite (slack_trigger_with_results w body text items s1) by assumption.
  rewrite Hfmt, Hurl. apply String.eqb_neq in Hurlne. rewrite Hurlne. cbv zeta.
  destruct Hreply as [ -> | (status & reply_body & -> & Hstatus) ]; [ reflexivity | ].
  unfold is_error.
  replace (400 <=? status)%Z with true by (symmetry; apply Z.leb_le; lia).
  replace (status <? 600)%Z with true by (symmetry; apply Z.ltb_lt; lia).
  reflexivity.
Qed.

Lemma post_failure_sample :
  fst (slack_trigger Sample.w_hook_down Sample.prod) = (ephemeral critical_text, 500%Z).
Proof.
  pose (run := format_slack_message Sample.w_hook_down [Sample.env1] Sample.s1).
  pose (message := match fst run with Ok m => m | Raise _ => JNull end).
  rewrite (post_failure_response Sample.w_hook_down Sample.prod "prod" [Sample.env1]
             Sample.s1 (snd run) message "https://hooks.example/T1").
  - reflexivity.
  - reflexivity.
  - discriminate.
  - vm_compute. reflexivity.
  - discriminate.
  - vm_compute. reflexivity.
  - reflexivity.
  - discriminate.
  - right. exists 404%Z, None. split; [ vm_compute; reflexivity | lia ].
Defined.

Lemma aggregate_gets_only (w : world) (uri : string) :
  forallb is_get (trace (snd (aggregate w uri API_CONFIGS [] init))) = true.
Proof.
  destruct (aggregate_spec w API_CONFIGS uri API_CONFIGS (incl_refl _)
              [] init (Forall_nil _)) as [Hsteps _].
  eapply trace_all_get; [ | exact Hsteps ]. apply region_request_is_get.
Qed.

Lemma format_gets_only (w : world) (items : list item) (s1 : state) :
  forallb is_get (trace s1) = true ->
  forallb is_get (trace (snd (format_slack_message w items s1))) = true.
Proof.
  intros H1. destruct (format_slack_message_steps w items s1) as [_ (sent & -> & Hsent)].
  rewrite forallb_app, H1. apply forallb_forall. rewrite Forall_forall in Hsent. auto.
Qed.

Lemma slack_trigger_without_results (w : world) (body : dict (list string))
  (text : string) :
  text_of body = Ok (Some text) -> text <> EmptyString ->
  forall s1,
    (forall e, aggregate w (env_uri_of text) API_CONFIGS [] init = (Raise e, s1) ->
               slack_trigger w body = ((ephemeral critical_text, 500%Z), s1))
    /\ (aggregate w (env_uri_of text) API_CONFIGS [] init = (Ok [], s1) ->
        slack_trigger w body = ((ephemeral (no_results_text text), 200%Z), s1)).
Proof.
  intros Htext Hne s1. apply String.eqb_neq in Hne.
  split; [ intros e Hagg | intros Hagg ];
    unfold slack_trigger, slack_trigger_try, bind, lift; rewrite Htext, Hne, Hagg;
    reflexivity.
Qed.

(** The responses of the handler and the traces of its runs, case by
    case. *)
Lemma slack_trigger_shape (w : world) (body : dict (list string)) :
  exists text status gets,
    fst (slack_trigger w body) = (ephemeral text, status)
    /\ (status = 200 \/ status = 500)%Z
    /\ forallb is_get gets = true
    /\ (trace (snd (slack_trigger w body)) = gets
        \/ exists url message,
             environ w "SLACK_WEBHOOK_URL" = Some url /\ url <> EmptyString
             /\ trace (snd (slack_trigger w body)) = gets ++ [webhook_post url message]).
Proof.
  assert (Hdone : forall text status s,
             slack_trigger w body = ((ephemeral text, status), s) ->
             (status = 200 \/ status = 500)%Z ->
             forallb is_get (trace s) = true ->
             exists text status gets,
               fst (slack_trigger w body) = (ephemeral text, status)
               /\ (status = 200 \/ status = 500)%Z
               /\ forallb is_get gets = true
               /\ (trace (snd (slack_trigger w body)) = gets
                   \/ exists url message,
                        environ w "SLACK_WEBHOOK_URL" = Some url /\ url <> EmptyString
                        /\ trace (snd (slack_trigger w body))
                           = gets ++ [webhook_post url message])).
  { intros text status s Hrun Hstatus Hgets. exists text, status, (trace s).
    rewrite Hrun. auto. }
  destruct (text_of body) as [ [ text | ] | e ] eqn:Htext.
  - destruct (text =? "")%string eqn:Hne.
    + apply (Hdone usage_text 200%Z init); auto.
      unfold slack_trigger, slack_trigger_try, bind, lift. now rewrite Htext, Hne.
    + apply String.eqb_neq in Hne.
      pose proof (aggregate_gets_only w (env_uri_of text)) as Hgets.
      destruct (slack_trigger_without_results w body text Htext Hne
                  (snd (aggregate w (env_uri_of text) API_CONFIGS [] init)))
        as [Hraise Hnone].
      pose proof (slack_trigger_with_results w body text) as Hsome.
      destruct (aggregate w (env_uri_of text) API_CONFIGS [] init)
        as [[ [ | env envs ] | e ] s1]; cbn [snd] in *.
      * eapply Hdone; [ exact (Hnone eq_refl) | auto | exact Hgets ].
      * specialize (Hsome (env :: envs) s1 Htext Hne eq_refl ltac:(discriminate)).
        pose proof (format_gets_only w (env :: envs) s1 Hgets) as Hgets2.
        destruct (format_slack_message w (env :: envs) s1) as [[message | e] s2];
          cbn [snd] in Hgets2;
          [ | eapply Hdone; [ exact Hsome | auto | exact Hgets2 ] ].
        destruct (environ w "SLACK_WEBHOOK_URL") as [ url | ] eqn:Henv;
          [ | eapply Hdone; [ exact Hsome | auto | exact Hgets2 ] ].
        destruct (url =? "")%string eqn:Hurl;
          [ eapply Hdone; [ exact Hsome | auto | exact Hgets2 ] | ].
        apply String.eqb_neq in Hurl. cbv zeta in Hsome.
        assert (Hpost : exists text status,
                   slack_trigger w body
                   = ((ephemeral text, status),
                      {| heap := heap s2;
                         trace := trace s2 ++ [webhook_post url message] |})
                   /\ (status = 200 \/ status = 500)%Z).
        { rewrite Hsome.
          destruct (http w (trace s2) _) as [ | status reply_body ];
            [ | destruct (is_error status) ]; eexists _, _; split;
            try reflexivity; auto. }
        destruct Hpost as (text' & status & Hrun & Hstatus).
        exists text', status, (trace s2). rewrite Hrun. cbn [fst snd trace].
        repeat (split; [ auto; fail | ]). right. exists url, message. auto.
      * eapply Hdone; [ exact (Hraise e eq_refl) | auto | exact Hgets ].
  - apply (Hdone usage_text 200%Z init); auto.
    unfold slack_trigger, slack_trigger_try, bind, lift. now rewrite Htext.
  - apply (Hdone critical_text 500%Z init); auto.
    unfold slack_trigger, slack_trigger_try, bind, lift. now rewrite Htext.
Qed.

(** X10. Whatever the request and the world, the handler answers with an
    ephemeral message and the status 200 or 500; no exception leaves it. *)
Theorem response_is_ephemeral (w : world) (body : dict (list string)) :
  exists text status,
    fst (slack_trigger w body) = (ephemeral text, status)
    /\ (status = 200 \/ status = 500)%Z.
Proof.
  destruct (slack_trigger_shape w body) as (text & status & gets & H1 & H2 & _).
  eauto.
Qed.

(** X11. A run of the handler sends at most one POST; it is the last
    request of the run and goes to the URL of the webhook variable, which
    is then set and not empty. *)
Theorem at_most_one_post (w : world) (body : dict (list string)) :
  exists gets,
    forallb is_get gets = true
    /\ (trace (snd (slack_trigger w body)) = gets
        \/ exists url message,
             environ w "SLACK_WEBHOOK_URL" = Some url /\ url <> EmptyString
             /\ trace (snd (slack_trigger w body)) = gets ++ [webhook_post url message]).
Proof.
  destruct (slack_trigger_shape w body) as (text & status & gets & _ & _ & H3 & H4).
  eauto.
Qed.

(** ** The formatter, block by block *)

Definition is_type (t : string) (block : json) : Prop :=
  block_type block = Some (JStr t).

Lemma deployment_block_actions (env_id region dep block : json) :
  deployment_block env_id region dep = Ok block -> is_type "actions" block.
Proof.
  destruct dep as [ | | | | | d ]; try discriminate. now intros [= <-].
Qed.

Lemma rmap_deployment_block_actions (env_id region : json) (deps blocks : list json) :
  rmap (deployment_block env_id region) deps = Ok blocks ->
  Forall (is_type "actions") blocks /\ length blocks = length deps.
Proof.
  revert blocks. induction deps as [ | dep deps IH ]; intros blocks; cbn [rmap].
  - intros [= <-]. split; [ constructor | reflexivity ].
  - destruct (deployment_block env_id region dep) as [ block | e ] eqn:Hblock;
      [ | discriminate ].
    cbn [rbind]. destruct (rmap _ deps) as [ rest | e ]; [ | discriminate ].
    cbn [rbind]. intros [= <-]. destruct (IH rest eq_refl) as [Hall Hlen].
    split; [ | simpl; now rewrite Hlen ].
    constructor; [ eapply deployment_block_actions; eauto | exact Hall ].
Qed.

(** What follows the section of an environment: one notice, or one action
    block or more. *)
Lemma deployment_blocks_kinds (env : item) (answer : json) (blocks : list json) :
  deployment_blocks env answer = Ok blocks ->
  (exists notice, blocks = [notice] /\ is_type "section" notice)
  \/ (blocks <> [] /\ Forall (is_type "actions") blocks).
Proof.
  unfold deployment_blocks.
  destruct (if truthy answer then py_in "detailedDeploymentsFormatted" answer
            else Ok false) as [ [ | ] | e ]; cbn [rbind]; [ | | discriminate ].
  - destruct (py_subscript answer "detailedDeploymentsFormatted")
      as [ deployments | e ]; cbn [rbind]; [ | discriminate ].
    destruct (truthy deployments) eqn:Htruthy; cbn [negb].
    + destruct (py_iter deployments) as [ deps | e ] eqn:Hiter; cbn [rbind];
        [ | discriminate ].
      intros Hmap. apply rmap_deployment_block_actions in Hmap as [Hall Hlen].
      right. split; [ | exact Hall ].
      intros ->. simpl in Hlen. symmetry in Hlen. apply length_zero_iff_nil in Hlen.
      subst deps.
      destruct deployments as [ | | | t | l | d ]; try discriminate;
        cbn [py_iter] in Hiter; injection Hiter as Hiter.
      * destruct t; [ discriminate | discriminate ].
      * now subst l.
      * destruct d; discriminate.
    + intros [= <-]. left. eexists. split; reflexivity.
  - destruct answer; intros [= <-]; left; eexists; split; reflexivity.
Qed.

Lemma format_env_blocks (w : world) (env : item) (s s' : state) (blocks : list json) :
  format_env w env s = (Ok blocks, s') ->
  exists rest,
    blocks = env_section env :: rest
    /\ ((exists notice, rest = [notice] /\ is_type "section" notice)
        \/ (rest <> [] /\ Forall (is_type "actions") rest)).
Proof.
  destruct (copyable env) eqn:Hc.
  - destruct (format_env_copyable w env s Hc) as [new ->].
    destruct (deployment_blocks env _) as [ rest | e ] eqn:Hrest; cbn [rbind];
      [ | discriminate ].
    intros [= <- _]. exists rest. split; [ reflexivity | ].
    eapply deployment_blocks_kinds; eauto.
  - destruct (format_env_not_copyable w env s Hc) as [e ->]. discriminate.
Qed.

(** X12. The message the formatter returns holds the channel, the fallback
    text and the blocks: the header first, then for each environment, in
    the order given, its section followed by one notice section or by one
    action block or more. *)
Theorem message_structure (w : world) (envs : list item) (s s' : state)
  (message : json) :
  format_slack_message w envs s = (Ok message, s') ->
  exists groups,
    message = JDict [("channel", JStr (SLACK_CHANNEL w));
                     ("text", JStr "Get Support Details");
                     ("blocks", JList (header_block :: concat groups))]
    /\ Forall2 (fun env group =>
                  exists rest,
                    group = env_section env :: rest
                    /\ ((exists notice, rest = [notice] /\ is_type "section" notice)
                        \/ (rest <> [] /\ Forall (is_type "actions") rest)))
               envs groups.
Proof.
  unfold format_slack_message, bind, ret.
  destruct (format_envs w envs s) as [[groups | e] s1] eqn:Hrun; [ | discriminate ].
  intros [= <- _]. exists groups. split; [ reflexivity | ].
  clear s'. revert s groups s1 Hrun. unfold format_envs.
  induction envs as [ | env envs IH ]; intros s groups s1; cbn [mapM].
  - intros [= <- _]. constructor.
  - unfold bind, ret.
    destruct (format_env w env s) as [[group | e] s2] eqn:Henv; [ | discriminate ].
    destruct (mapM (format_env w) envs s2) as [[rest | e] s3] eqn:Hrest;
      [ | discriminate ].
    intros [= <- _]. constructor; [ eapply format_env_blocks; eauto | eapply IH; eauto ].
Qed.

Lemma message_structure_sample :
  exists groups,
    Sample.message
    = JDict [("channel", JStr (SLACK_CHANNEL (Sample.w true)));
             ("text", JStr "Get Support Details");
             ("blocks", JList (header_block :: concat groups))]
    /\ length groups = 1.
Proof.
  destruct (message_structure (Sample.w true) [Sample.env1] Sample.s1 Sample.s2
              Sample.message) as (groups & Hmessage & Hgroups);
    [ vm_compute; reflexivity | ].
  exists groups. split; [ exact Hmessage | ].
  apply Forall2_length in Hgroups. now rewrite <- Hgroups.
Defined.

(** X13. An answer that lists deployment objects gives one action block
    for each of them, in the order of the answer. *)
Theorem one_block_per_deployment (env : item) (d : dict json)
  (deployment : dict json) (others : list (dict json)) :
  dict_get "detailedDeploymentsFormatted" d
  = Some (JList (map JDict (deployment :: others))) ->
  exists blocks,
    deployment_blocks env (JDict d) = Ok blocks
    /\ Forall2 (fun dep block =>
                  deployment_block (env_id_of env) (item_get "region" env) (JDict dep)
                  = Ok block)
               (deployment :: others) blocks.
Proof.
  intros Hkey. unfold deployment_blocks, py_in, py_subscript, dict_mem.
  destruct d as [ | kv d ]; [ discriminate | ].
  cbn [truthy]. rewrite Hkey. cbn [rbind map truthy negb py_iter].
  change (JDict deployment :: map JDict others) with (map JDict (deployment :: others)).
  generalize (deployment :: others). intros deps.
  induction deps as [ | dep deps IH ].
  - eexists. split; [ reflexivity | constructor ].
  - destruct IH as (rest & Hrest & Hall).
    cbn [map rmap]. rewrite Hrest.
    destruct (deployment_block_dict (env_id_of env) (item_get "region" env) dep)
      as [block Hblock].
    rewrite Hblock. cbn [rbind]. eexists. split; [ reflexivity | ].
    constructor; assumption.
Qed.

Lemma one_block_per_deployment_sample :
  exists blocks,
    deployment_blocks Sample.env1 Sample.deployments = Ok blocks
    /\ length blocks = 2.
Proof.
  destruct (one_block_per_deployment Sample.env1
              [("detailedDeploymentsFormatted",
                JList [JDict [("id", JStr "d1"); ("name", JStr "blue");
                              ("state", JStr "Primary")];
                       JDict [("id", JStr "d2"); ("name", JStr "green");
                              ("state", JStr "Secondary")]])]
              [("id", JStr "d1"); ("name", JStr "blue"); ("state", JStr "Primary")]
              [[("id", JStr "d2"); ("name", JStr "green"); ("state", JStr "Secondary")]]
              eq_refl) as (blocks & Hrun & Hall).
  exists blocks. split; [ exact Hrun | ].
  apply Forall2_length in Hall. now rewrite <- Hall.
Defined.

(** X14. The button of a deployment is labelled with the name of the
    deployment; a deployment whose name is absent, empty or otherwise
    false is labelled Unnamed Deployment.  Every button has the action id
    get_logs. *)
Theorem button_label (env_id region : json) (d : dict json) :
  exists block label,
    deployment_block env_id region (JDict d) = Ok block
    /\ button_field "text" block
       = Some (JDict [("type", JStr "plain_text"); ("emoji", JBool true);
                      ("text", JStr ("Get Logs for " ++ label))])
    /\ button_field "action_id" block = Some (JStr "get_logs")
    /\ (truthy (get_or_none "name" d) = false -> label = "Unnamed Deployment")
    /\ (forall name, dict_get "name" d = Some (JStr name) -> name <> EmptyString ->
                     label = name).
Proof.
  exists (match deployment_block env_id region (JDict d) with
          | Ok b => b
          | Raise _ => JNull
          end),
         (Repr.str (py_or (get_or_none "name" d) (JStr "Unnamed Deployment"))).
  split; [ reflexivity | ]. split; [ reflexivity | ]. split; [ reflexivity | ].
  unfold py_or. split.
  - now intros ->.
  - intros name Hname Hne. unfold get_or_none. rewrite Hname. cbn [truthy].
    apply String.eqb_neq in Hne. now rewrite Hne.
Qed.



(** X16. For an environment whose id is absent or false, the deployments
    request is still sent, with the str Unknown ID in the id header. *)
Theorem missing_id_is_sent_as_unknown (w : world) (env : item) (s : state) :
  copyable env = true ->
  truthy (item_get "id" env) = false ->
  exists url hs,
    trace (snd (format_env w env s)) = trace s ++ [Get url hs]
    /\ dict_get "zn-env-id" hs = Some (JStr "Unknown ID").
Proof.
  intros Hc Hid. destruct (format_env_copyable w env s Hc) as [new ->].
  eexists _, _. split; [ reflexivity | ].
  rewrite dict_get_set_same. unfold env_id_of, py_or. now rewrite Hid.
Qed.

Lemma missing_id_sample :
  exists url hs,
    trace (snd (format_env (Sample.w true)
                  {| entries := [("name", JStr "prod-1")]; headers_obj := None |} init))
    = trace init ++ [Get url hs]
    /\ dict_get "zn-env-id" hs = Some (JStr "Unknown ID").
Proof.
  apply (missing_id_is_sent_as_unknown (Sample.w true)
           {| entries := [("name", JStr "prod-1")]; headers_obj := None |} init);
    reflexivity.
Defined.

Lemma rmap_deployment_block_bad (env_id region : json) (l : list json) :
  forallb is_dict l = false ->
  rmap (deployment_block env_id region) l = Raise AttributeError.
Proof.
  induction l as [ | dep l IH ]; [ discriminate | ].
  cbn [forallb rmap]. destruct dep as [ | | | | | d ]; try reflexivity.
  cbn [is_dict andb]. intros Hl.
  destruct (deployment_block_dict env_id region d) as [block ->].
  cbn [rbind]. now rewrite (IH Hl).
Qed.

(** X17. An answer of an unexpected kind makes the formatter raise, and
    with it the whole message is lost: a deployments list that holds
    anything but objects raises an AttributeError, an answer that is true
    or a number other than zero raises a TypeError. *)
Theorem unexpected_answer_raises (w : world) (env : item) (rest : list item)
  (s : state) :
  copyable env = true ->
  ((exists d l,
       deployments_answer w env s = JDict d
       /\ dict_get "detailedDeploymentsFormatted" d = Some (JList l)
       /\ forallb is_dict l = false) ->
   fst (format_slack_message w (env :: rest) s) = Raise AttributeError)
  /\ (deployments_answer w env s = JBool true
      \/ (exists n, deployments_answer w env s = JInt n /\ n <> 0%Z) ->
      fst (format_slack_message w (env :: rest) s) = Raise TypeError).
Proof.
  intros Hc. destruct (format_env_copyable w env s Hc) as [new Hrun].
  unfold format_slack_message, format_envs. cbn [mapM]. unfold bind.
  rewrite Hrun. split.
  - intros (d & l & -> & Hkey & Hbad).
    unfold deployment_blocks, py_in, py_subscript, dict_mem.
    destruct d as [ | kv d ]; [ discriminate | ].
    cbn [truthy]. rewrite Hkey. cbn [rbind py_iter].
    destruct l as [ | dep l ]; [ discriminate | ].
    cbn [truthy negb]. now rewrite (rmap_deployment_block_bad _ _ _ Hbad).
  - intros [ -> | (n & -> & Hn) ]; [ reflexivity | ].
    unfold deployment_blocks. cbn [truthy].
    apply Z.eqb_neq in Hn. now rewrite Hn.
Qed.

Lemma unexpected_answer_sample :
  fst (format_slack_message Sample.w_ids [Sample.env1] Sample.s1)
  = Raise AttributeError.
Proof.
  apply (unexpected_answer_raises Sample.w_ids Sample.env1 [] Sample.s1 eq_refl).
  exists [("detailedDeploymentsFormatted", JList [JStr "d1"; JStr "d2"])],
         [JStr "d1"; JStr "d2"].
  repeat split; reflexivity.
Defined.

(** ** The search query *)

(** X18. The filter the handler sends is the JSON text of a filter on the
    name, whose one included value is the search text: decoding it gives
    that filter back, whatever characters the text holds. *)
Theorem search_filter_round_trip (text : string) :
  exists filters,
    env_uri_of text
    = ("/provisioning/environments/?"
       ++ Url.urlencode [("_filters", filters); ("_limit", "5")])%string
    /\ Json.loads filters = Some (filters_of text).
Proof.
  exists (Json.dumps (filters_of text)). split; [ reflexivity | ].
  apply JsonFacts.loads_dumps. reflexivity.
Qed.

Lemma concat_empty_cons (x : string) (l : list string) :
  String.concat "" (x :: l) = (x ++ String.concat "" l)%string.
Proof.
  destruct l as [ | y l ]; simpl; [ now rewrite JsonFacts.append_nil_r | reflexivity ].
Qed.

Lemma list_ascii_of_append (a b : string) :
  list_ascii_of_string (a ++ b) = list_ascii_of_string a ++ list_ascii_of_string b.
Proof.
  induction a as [ | c a IH ]; simpl; [ reflexivity | now rewrite IH ].
Qed.

Lemma quote_char_chars (c : ascii) :
  forallb url_char (list_ascii_of_string (Url.quote_char c)) = true.
Proof. destruct c as [[] [] [] [] [] [] [] []]; reflexivity. Qed.

Lemma quote_plus_chars (s : string) :
  forallb url_char (list_ascii_of_string (Url.quote_plus s)) = true.
Proof.
  unfold Url.quote_plus. induction s as [ | c s IH ]; [ reflexivity | ].
  cbn [list_ascii_of_string map].
  rewrite concat_empty_cons, list_ascii_of_append, forallb_app, IH.
  now rewrite quote_char_chars.
Qed.

Lemma has_char_forallb (P : ascii -> bool) (c : ascii) (s : string) :
  forallb P (list_ascii_of_string s) = true -> P c = false ->
  Repr.has_char c s = false.
Proof.
  intros Hall Hc. induction s as [ | x s IH ]; [ reflexivity | ].
  cbn [list_ascii_of_string forallb] in Hall.
  apply andb_true_iff in Hall as [Hx Hs]. cbn [Repr.has_char].
  rewrite (IH Hs), orb_false_r.
  destruct (Ascii.eqb_spec x c) as [ -> | ]; [ congruence | reflexivity ].
Qed.

(** X19. The path the aggregator asks has the form
    [/provisioning/environments/?_filters=...&_limit=5], where the value of
    the filter holds only letters, digits and the characters [_.-~+%]:
    nothing in a search text can close the filter or add a parameter. *)
Theorem search_query_is_quoted (text : string) :
  exists q,
    env_uri_of text
    = ("/provisioning/environments/?_filters=" ++ q ++ "&_limit=5")%string
    /\ forallb url_char (list_ascii_of_string q) = true
    /\ Repr.has_char "&" q = false
    /\ Repr.has_char "=" q = false
    /\ Repr.has_char "#" q = false
    /\ Repr.has_char " " q = false.
Proof.
  exists (Url.quote_plus (Json.dumps (filters_of text))).
  pose proof (quote_plus_chars (Json.dumps (filters_of text))) as Hchars.
  split; [ | split; [ exact Hchars | ] ].
  - unfold env_uri_of, Url.urlencode. cbn [map fst snd String.concat].
    fold (filters_of text).
    generalize (Url.quote_plus (Json.dumps (filters_of text))). intros q.
    reflexivity.
  - repeat split; apply (has_char_forallb url_char); auto.
Qed.

(** ** The aggregator as a whole *)



